(** * ansible_rulebook.app: startup validation, source supervision, shutdown

    A shallow embedding of [src/ansible_rulebook/app.py].  The coroutine
    [run] and its helpers are written as computations in a state-and-error
    monad over a [World] that holds the process environment, the logger's
    records, the controller client singleton, the object-id allocator and
    the chronological trace of every call made to the event loop and to
    the external collaborators.  Collaborators that live outside [app.py]
    (YAML loading, the rule engine driver, the source plugins, the
    controller client, the file system) are fields of one interface record
    and may answer differently as the trace grows. *)

From Stdlib Require Import ZArith QArith Lia.
From stdpp Require Import base option list gmap strings pretty.

Set Warnings "-register-all".

(** ** Python values, exceptions and results *)

(** Data as produced by [yaml.safe_load]; dictionaries keep insertion order. *)
Inductive PyValue :=
| VNone
| VBool (b : bool)
| VInt (z : Z)
| VStr (s : string)
| VList (l : list PyValue)
| VDict (d : list (string * PyValue)).

(** [Optional[str]] attributes of the argparse namespace and of StartupArgs. *)
Definition PyStr := option string.

(** Truthiness of an [Optional[str]]: [None] and the empty string are falsy. *)
Definition truthy (s : PyStr) : bool :=
  match s with
  | None => false
  | Some v => negb (String.eqb v "")
  end.

(** The exception classes the module names, plus the two kinds a
    collaborator may raise on its own. *)
Inductive ExcClass :=
| CancelledError
| PyException
| KeyError
| TypeError
| WebSocketExchangeException
| RulebookNotFoundException
| InventoryNeededException
| InventoryNotFound
| ControllerNeededException
| InvalidUrlException
| OtherException (name : string)
| OtherBaseException (name : string).

Global Instance ExcClass_eq_dec : EqDecision ExcClass.
Proof. solve_decision. Defined.

(** [isinstance(e, Exception)]: since Python 3.8, where
    [asyncio.exceptions] exists, CancelledError derives from BaseException
    only. *)
Definition isinstance_Exception (c : ExcClass) : bool :=
  match c with
  | CancelledError | OtherBaseException _ => false
  | _ => true
  end.

Definition isinstance_CancelledError (c : ExcClass) : bool :=
  match c with
  | CancelledError => true
  | _ => false
  end.

(** [type(e).__name__] *)
Definition class_name (c : ExcClass) : string :=
  match c with
  | CancelledError => "CancelledError"
  | PyException => "Exception"
  | KeyError => "KeyError"
  | TypeError => "TypeError"
  | WebSocketExchangeException => "WebSocketExchangeException"
  | RulebookNotFoundException => "RulebookNotFoundException"
  | InventoryNeededException => "InventoryNeededException"
  | InventoryNotFound => "InventoryNotFound"
  | ControllerNeededException => "ControllerNeededException"
  | InvalidUrlException => "InvalidUrlException"
  | OtherException n => n
  | OtherBaseException n => n
  end.

(** One entry of [traceback.extract_tb]. *)
Record Frame := mkFrame {
  frame_filename : string;
  frame_lineno : nat;
  frame_name : string
}.

Record PyExc := mkExc {
  exc_class : ExcClass;
  exc_msg : string;                    (* str(e) *)
  exc_traceback : option (list Frame)  (* e.__traceback__ *)
}.

Definition new_exc (c : ExcClass) (msg : string) : PyExc := mkExc c msg None.

Inductive Res (A : Type) :=
| Ok (a : A)
| Raise (e : PyExc).
Arguments Ok {A} a.
Arguments Raise {A} e.

Definition is_raise {A} (r : Res A) : bool :=
  match r with
  | Ok _ => false
  | Raise _ => true
  end.

(** ** State-and-error monad *)

Definition SE (S A : Type) := S -> Res A * S.

Definition ret {S A} (a : A) : SE S A := fun s => (Ok a, s).

Definition raise {S A} (e : PyExc) : SE S A := fun s => (Raise e, s).

Definition bind {S A B} (m : SE S A) (k : A -> SE S B) : SE S B :=
  fun s =>
    match m s with
    | (Ok a, s') => k a s'
    | (Raise e, s') => (Raise e, s')
    end.

Definition get {S} : SE S S := fun s => (Ok s, s).

Definition modify {S} (f : S -> S) : SE S unit := fun s => (Ok tt, f s).

Definition lift_res {S A} (r : Res A) : SE S A := fun s => (r, s).

Notation "x <- m ;; k" := (bind m (fun x => k))
  (at level 90, m at level 80, right associativity).
Notation "m ;;; k" := (bind m (fun _ => k))
  (at level 90, right associativity).

Definition when {S} (b : bool) (m : SE S unit) : SE S unit :=
  if b then m else ret tt.

(** A [for] loop whose body may raise: the first exception ends the loop. *)
Fixpoint for_each {S A} (l : list A) (body : A -> SE S unit) : SE S unit :=
  match l with
  | [] => ret tt
  | x :: rest => body x ;;; for_each rest body
  end.

(** ** Rulebook data model (ansible_rulebook.rule_types) *)

Record Action := mkAction {
  action : string;
  action_args : PyValue
}.

Record Rule := mkRule {
  rule_name : string;
  actions : list Action
}.

Record EventSource := mkEventSource {
  source_name : string;
  source_args : PyValue
}.

Record RuleSet := mkRuleSet {
  ruleset_name : string;
  sources : list EventSource;
  rules : list Rule
}.

(** ansible_rulebook.common.StartupArgs: the dataclass is declared outside
    [app.py]; these are the attributes [app.py] reads and writes. *)
Record StartupArgs := mkStartupArgs {
  rulesets : list RuleSet;
  variables : list (string * PyValue);
  env_vars : list (string * PyValue);
  inventory : PyStr;
  project_data_file : PyStr;
  controller_url : PyStr;
  controller_token : PyStr;
  controller_ssl_verify : PyStr;
  controller_username : PyStr;
  controller_password : PyStr;
  check_controller_connection : bool;
  check_vault : bool
}.

Definition set_rulesets (v : list RuleSet) (a : StartupArgs) : StartupArgs :=
  mkStartupArgs v (variables a) (env_vars a) (inventory a)
    (project_data_file a) (controller_url a) (controller_token a)
    (controller_ssl_verify a) (controller_username a) (controller_password a)
    (check_controller_connection a) (check_vault a).

Definition set_variables (v : list (string * PyValue)) (a : StartupArgs)
  : StartupArgs :=
  mkStartupArgs (rulesets a) v (env_vars a) (inventory a)
    (project_data_file a) (controller_url a) (controller_token a)
    (controller_ssl_verify a) (controller_username a) (controller_password a)
    (check_controller_connection a) (check_vault a).

Definition set_env_vars (v : list (string * PyValue)) (a : StartupArgs)
  : StartupArgs :=
  mkStartupArgs (rulesets a) (variables a) v (inventory a)
    (project_data_file a) (controller_url a) (controller_token a)
    (controller_ssl_verify a) (controller_username a) (controller_password a)
    (check_controller_connection a) (check_vault a).

Definition set_inventory (v : PyStr) (a : StartupArgs) : StartupArgs :=
  mkStartupArgs (rulesets a) (variables a) (env_vars a) v
    (project_data_file a) (controller_url a) (controller_token a)
    (controller_ssl_verify a) (controller_username a) (controller_password a)
    (check_controller_connection a) (check_vault a).

(** Lines 112-117 of [run]: the six attributes copied from the namespace. *)
Definition set_project_and_controller
    (project url token ssl_verify username password : PyStr)
    (a : StartupArgs) : StartupArgs :=
  mkStartupArgs (rulesets a) (variables a) (env_vars a) (inventory a)
    project url token ssl_verify username password
    (check_controller_connection a) (check_vault a).

Definition set_check_controller_connection (v : bool) (a : StartupArgs)
  : StartupArgs :=
  mkStartupArgs (rulesets a) (variables a) (env_vars a) (inventory a)
    (project_data_file a) (controller_url a) (controller_token a)
    (controller_ssl_verify a) (controller_username a) (controller_password a)
    v (check_vault a).

Definition set_check_vault (v : bool) (a : StartupArgs) : StartupArgs :=
  mkStartupArgs (rulesets a) (variables a) (env_vars a) (inventory a)
    (project_data_file a) (controller_url a) (controller_token a)
    (controller_ssl_verify a) (controller_username a) (controller_password a)
    (check_controller_connection a) v.

(** ** Module constants *)

Definition INVENTORY_ACTIONS : list string := ["run_playbook"; "run_module"].

Definition CONTROLLER_ACTIONS : list string :=
  ["run_job_template"; "run_workflow_template"].

(** [x in t] for a tuple of strings. *)
Definition py_in (x : string) (t : list string) : bool :=
  existsb (String.eqb x) t.

(** [os.path.exists]: a [None] path is not caught by the library and
    surfaces as a TypeError; any string is looked up on the file system. *)
Definition os_path_exists {S} (fs : string -> bool) (p : PyStr) : SE S bool :=
  match p with
  | None =>
      raise (new_exc TypeError
        "stat: path should be string, bytes, os.PathLike or integer, not NoneType")
  | Some s => ret (fs s)
  end.

Definition show_opt (p : PyStr) : string :=
  match p with
  | None => "None"
  | Some s => s
  end.

(** ** validate_actions (lines 279-310) *)

Section Validation.

(** The file system as [os.path.exists] sees it during the call, and
    [util.decryptable], which returns nothing and raises on undecryptable
    content. *)
Variable fs : string -> bool.
Variable decryptable : PyValue -> Res unit.

(** The body of the innermost loop, for one action of one rule. *)
Definition validate_action (rule : Rule) (a : Action) : SE StartupArgs unit :=
  when (py_in (action a) CONTROLLER_ACTIONS)
    (modify (set_check_controller_connection true)) ;;;
  startup_args <- get ;;
  when (py_in (action a) INVENTORY_ACTIONS
        && negb (truthy (inventory startup_args)))
    (raise (new_exc InventoryNeededException
      ("Rule " +:+ rule_name rule +:+ " has an action " +:+ action a
       +:+ " which needs inventory to be defined"))) ;;;
  missing <- (if py_in (action a) INVENTORY_ACTIONS
              then found <- os_path_exists fs (inventory startup_args) ;;
                   ret (negb found)
              else ret false) ;;
  when missing
    (raise (new_exc InventoryNotFound
      ("Inventory " +:+ show_opt (inventory startup_args) +:+ " not found"))) ;;;
  when (py_in (action a) CONTROLLER_ACTIONS
        && negb (truthy (controller_url startup_args))
        && negb (truthy (controller_token startup_args)))
    (raise (new_exc ControllerNeededException
      ("Rule " +:+ rule_name rule +:+ " has an action " +:+ action a
       +:+ " which needs controller url and token to be defined"))) ;;;
  when (check_vault startup_args)
    (lift_res (decryptable (action_args a))).

Definition validate_actions : SE StartupArgs unit :=
  startup_args <- get ;;
  for_each (rulesets startup_args) (fun ruleset =>
    for_each (rules ruleset) (fun rule =>
      for_each (actions rule) (fun a =>
        validate_action rule a))).

(** validate_variables (lines 275-276) *)
Definition validate_variables : SE StartupArgs unit :=
  startup_args <- get ;;
  lift_res (decryptable (VDict (variables startup_args))).

End Validation.

(** ** Python dictionaries that keep insertion order *)

Fixpoint dict_get {V} (k : string) (d : list (string * V)) : option V :=
  match d with
  | [] => None
  | (k', v) :: rest => if String.eqb k k' then Some v else dict_get k rest
  end.

(** [d[k] = v] *)
Fixpoint dict_set {V} (k : string) (v : V) (d : list (string * V))
  : list (string * V) :=
  match d with
  | [] => [(k, v)]
  | (k', v') :: rest =>
      if String.eqb k k' then (k, v) :: rest else (k', v') :: dict_set k v rest
  end.

(** [d.update(e)] *)
Definition dict_update {V} (d e : list (string * V)) : list (string * V) :=
  fold_left (fun acc kv => dict_set (fst kv) (snd kv) acc) e d.

(** A loop that threads the variables it rebinds. *)
Fixpoint for_fold {S A B} (l : list A) (acc : B) (body : A -> B -> SE S B)
  : SE S B :=
  match l with
  | [] => ret acc
  | x :: rest => acc' <- body x acc ;; for_fold rest acc' body
  end.

(** ** The argparse namespace *)

Module Args.
Record t := mk {
  worker : bool;
  websocket_url : PyStr;
  id : PyStr;
  rulebook : PyStr;
  vars : PyStr;
  env_vars : PyStr;
  hot_reload : bool;
  inventory : PyStr;
  project_tarball : PyStr;
  controller_url : PyStr;
  controller_token : PyStr;
  controller_ssl_verify : PyStr;
  controller_username : PyStr;
  controller_password : PyStr;
  source_dir : PyStr;
  shutdown_delay : Q
}.
End Args.

(** ** Event-loop objects *)

(** [event_log] is either an unbounded [asyncio.Queue] or the module's
    [NullQueue], whose [put] does nothing. *)
Inductive EventLog :=
| AsyncQueue (queue : nat)
| NullQueue.

(** The coroutines [app.py] wraps in tasks, with their arguments. *)
Inductive Coroutine :=
| start_source (source : EventSource) (source_dirs : list PyStr)
    (variables : list (string * PyValue)) (queue : nat) (shutdown_delay : Q)
| send_event_log_to_websocket (event_log : EventLog).

Record Task := mkTask {
  task_id : nat;
  task_coro : Coroutine
}.

(** rule_types.RuleSetQueue: a ruleset and the queue its sources feed. *)
Record RuleSetQueue := mkRuleSetQueue {
  rsq_ruleset : RuleSet;
  rsq_queue : nat
}.

(** What [gather(..., return_exceptions=True)] yields for one task. *)
Inductive TaskResult :=
| Returned (v : PyValue)
| Failed (e : PyExc).

(** The controller client singleton [job_template_runner]. *)
Record JobTemplateRunner := mkRunner {
  runner_host : PyStr;
  runner_token : PyStr;
  runner_verify_ssl : PyStr;
  runner_username : PyStr;
  runner_password : PyStr
}.

(** The arguments of one call of [engine.run_rulesets]. *)
Record DriverCall := mkDriverCall {
  dc_event_log : EventLog;
  dc_ruleset_queues : list RuleSetQueue;
  dc_variables : list (string * PyValue);
  dc_inventory : PyStr;
  dc_parsed_args : Args.t;
  dc_project_data_file : PyStr;
  dc_file_monitor : PyStr
}.

(** Calls that leave [app.py], in the order they are made, each with the
    answer it got. *)
Inductive Event :=
| EvStartupLogging
| EvRequestWorkload (id : PyStr) (r : Res (option StartupArgs))
| EvSetEnv (k v : string) (r : Res unit)
| EvGetConfig (runner : JobTemplateRunner) (r : Res (list (string * PyValue)))
| EvNewQueue (queue : nat) (maxsize : Z)
| EvCreateTask (t : Task)
| EvRunRulesets (c : DriverCall) (r : Res bool)
| EvPut (log : EventLog) (item : PyValue)
| EvWait (t : Task) (timeout : Z) (done : bool)
| EvCancel (t : Task)
| EvAwait (t : Task) (r : TaskResult)
| EvCloseSession (r : Res unit).

Inductive Level := DEBUG | INFO | ERROR | CRITICAL.

Record World := mkWorld {
  w_trace : list Event;
  w_environ : gmap string string;      (* os.environ *)
  w_log : list (Level * string);       (* records of [logger] *)
  w_runner : JobTemplateRunner;
  w_queues : gmap nat Z;               (* live asyncio queues and their maxsize *)
  w_next_id : nat                      (* next fresh object identity *)
}.

Definition M := SE World.

Definition emit (e : Event) : M unit :=
  modify (fun w => mkWorld (w_trace w ++ [e]) (w_environ w) (w_log w)
                     (w_runner w) (w_queues w) (w_next_id w)).

Definition log (lvl : Level) (msg : string) : M unit :=
  modify (fun w => mkWorld (w_trace w) (w_environ w) (w_log w ++ [(lvl, msg)])
                     (w_runner w) (w_queues w) (w_next_id w)).

Definition history : M (list Event) := fun w => (Ok (w_trace w), w).

Definition set_runner (f : JobTemplateRunner -> JobTemplateRunner) : M unit :=
  modify (fun w => mkWorld (w_trace w) (w_environ w) (w_log w)
                     (f (w_runner w)) (w_queues w) (w_next_id w)).

(** [asyncio.Queue(maxsize)]: a new queue object, distinct from all others. *)
Definition new_queue (maxsize : Z) : M nat :=
  w <- get ;;
  let q := w_next_id w in
  modify (fun w => mkWorld (w_trace w) (w_environ w) (w_log w) (w_runner w)
                     (<[q := maxsize]> (w_queues w)) (S (w_next_id w))) ;;;
  emit (EvNewQueue q maxsize) ;;;
  ret q.

(** [asyncio.create_task(coro)] *)
Definition create_task (coro : Coroutine) : M Task :=
  w <- get ;;
  let t := mkTask (w_next_id w) coro in
  modify (fun w => mkWorld (w_trace w) (w_environ w) (w_log w) (w_runner w)
                     (w_queues w) (S (w_next_id w))) ;;;
  emit (EvCreateTask t) ;;;
  ret t.

(** Runs a computation on the startup arguments inside [M]; the mutated
    object is handed back. *)
Definition on_startup_args {A} (m : SE StartupArgs A) (a : StartupArgs)
  : M (A * StartupArgs) :=
  fun w =>
    match m a with
    | (Ok x, a') => (Ok (x, a'), w)
    | (Raise e, _) => (Raise e, w)
    end.

(** ** log_exception_without_data (lines 74-80) *)

Definition str_nat (n : nat) : string := pretty n.

Definition log_exception_without_data
    (exc_type : ExcClass) (exc_value : string)
    (exc_traceback : option (list Frame)) : M unit :=
  log ERROR (class_name exc_type +:+ ": " +:+ exc_value) ;;;
  match exc_traceback with
  | None => ret tt
  | Some tb =>
      for_each (rev tb) (fun frame =>
        log ERROR (frame_filename frame +:+ ":" +:+ str_nat (frame_lineno frame)
                   +:+ " " +:+ frame_name frame))
  end.

(** ** External collaborators

    Everything [app.py] imports and calls.  Functions of the trace stand
    for collaborators whose answer depends on the outside world at the
    time of the call. *)
Record Collaborators := mkCollaborators {
  (* ansible_rulebook.util *)
  decryptable : PyValue -> Res unit;
  decrypted_context : list (string * PyValue) -> Res (list (string * PyValue));
  substitute_variables :
    list (string * PyValue) -> list (string * PyValue)
    -> Res (list (string * PyValue));
  validate_url : string -> string -> bool;
  (* ansible_rulebook.vault *)
  has_vaulted_str : string -> bool;
  (* builtins: str(v), repr(s), and [s.split(",")] with each part stripped *)
  py_str : PyValue -> string;
  py_repr : string -> string;
  split_strip : string -> list string;
  (* what the operating system answers when os.environ stores a variable:
     it raises for a name or value it rejects *)
  putenv : list Event -> string -> string -> Res unit;
  (* the file system: os.path.exists and open(...).read() *)
  path_exists : list Event -> string -> bool;
  read_file : list Event -> string -> Res string;
  (* yaml.safe_load of a variables file, as accepted by dict.update *)
  yaml_vars : string -> Res (list (string * PyValue));
  (* yaml.safe_load, Validate.rulebook and rules_parser.parse_rule_sets *)
  parse_rulebook : string -> list (string * PyValue) -> Res (list RuleSet);
  (* ansible_rulebook.collection, on the split collection name *)
  has_rulebook : list Event -> string -> bool;
  collection_load_rulebook : list Event -> string -> Res (bool * list RuleSet);
  (* ansible_rulebook.websocket.request_workload; None is a falsy answer *)
  request_workload : list Event -> PyStr -> Res (option StartupArgs);
  (* ansible_rulebook.common: a freshly constructed StartupArgs() *)
  StartupArgs_new : StartupArgs;
  (* ansible_rulebook.conf.settings *)
  max_feedback_timeout : Z;
  (* job_template_runner.get_config() and .close_session() *)
  get_config : list Event -> JobTemplateRunner -> Res (list (string * PyValue));
  close_session : list Event -> Res unit;
  (* ansible_rulebook.engine.run_rulesets *)
  run_rulesets : list Event -> DriverCall -> Res bool;
  (* the event loop: whether a task finishes within a timeout, and what a
     task has produced once it is awaited *)
  wait_done : list Event -> Task -> Z -> bool;
  task_outcome : list Event -> Task -> TaskResult
}.

Section App.

Variable X : Collaborators.

(** [os.environ[k] = v]: the variable is handed to the operating system
    first, and the mapping is updated only when that did not raise. *)
Definition setenv (k v : string) : M unit :=
  h <- history ;;
  let answer := putenv X h k v in
  emit (EvSetEnv k v answer) ;;;
  lift_res answer ;;;
  modify (fun w => mkWorld (w_trace w) (<[k := v]> (w_environ w)) (w_log w)
                     (w_runner w) (w_queues w) (w_next_id w)).

(** *** load_vars (lines 194-209) *)
Definition load_vars (parsed_args : Args.t) : M (list (string * PyValue)) :=
  let variables := [] in
  variables <-
    match Args.vars parsed_args with
    | Some path =>
        if truthy (Some path) then
          h <- history ;;
          raw <- lift_res (read_file X h path) ;;
          loaded <- lift_res (yaml_vars X raw) ;;
          ret (dict_update variables loaded)
        else ret variables
    | None => ret variables
    end ;;
  match Args.env_vars parsed_args with
  | Some names =>
      if truthy (Some names) then
        for_fold (split_strip X names) variables (fun env_var variables =>
          w <- get ;;
          match w_environ w !! env_var with
          | None =>
              raise (new_exc KeyError
                (py_repr X ("Could not find environment variable "
                            +:+ py_repr X env_var)))
          | Some v => ret (dict_set env_var (VStr v) variables)
          end)
      else ret variables
  | None => ret variables
  end.

(** *** load_rulebook (lines 213-247) *)
Definition load_rulebook (parsed_args : Args.t)
    (startup_args : option StartupArgs)
  : M (list RuleSet * option StartupArgs) :=
  match Args.rulebook parsed_args with
  | None =>
      log DEBUG "Loading no rules" ;;;
      ret ([], startup_args)
  | Some path =>
      if negb (truthy (Some path)) then
        log DEBUG "Loading no rules" ;;;
        ret ([], startup_args)
      else
        h <- history ;;
        if path_exists X h path then
          log DEBUG ("Loading rules from the file system " +:+ path) ;;;
          raw_data <- lift_res (read_file X h path) ;;
          let startup_args :=
            option_map (set_check_vault (has_vaulted_str X raw_data))
                       startup_args in
          let variables :=
            match startup_args with
            | Some a => variables a
            | None => []
            end in
          rulesets <- lift_res (parse_rulebook X raw_data variables) ;;
          ret (rulesets, startup_args)
        else if has_rulebook X h path then
          log DEBUG ("Loading rules from a collection " +:+ path) ;;;
          loaded <- lift_res (collection_load_rulebook X h path) ;;
          ret (snd loaded, option_map (set_check_vault (fst loaded)) startup_args)
        else
          raise (new_exc RulebookNotFoundException
                   ("Could not find rulebook " +:+ path))
  end.

(** *** spawn_sources (lines 250-272) *)
Definition spawn_sources
    (rulesets : list RuleSet) (variables : list (string * PyValue))
    (source_dirs : list PyStr) (shutdown_delay : Q)
  : M (list Task * list RuleSetQueue) :=
  let tasks := [] in
  let ruleset_queues := [] in
  for_fold rulesets (tasks, ruleset_queues) (fun ruleset acc =>
    let '(tasks, ruleset_queues) := acc in
    source_queue <- new_queue 1 ;;
    tasks <- for_fold (sources ruleset) tasks (fun source tasks =>
      task <- create_task
                (start_source source source_dirs variables source_queue
                              shutdown_delay) ;;
      ret (tasks ++ [task])) ;;
    ret (tasks, ruleset_queues ++ [mkRuleSetQueue ruleset source_queue])).

(** *** validate_controller_params (lines 313-331) *)
Definition validate_controller_params (startup_args : StartupArgs) : M unit :=
  match controller_url startup_args with
  | None => ret tt
  | Some url =>
      if truthy (Some url) then
        when (negb (validate_url X url "controller"))
          (raise (new_exc InvalidUrlException "Invalid controller url.")) ;;;
        set_runner (fun r =>
          mkRunner (controller_url startup_args)
                   (controller_token startup_args)
                   (runner_verify_ssl r) (runner_username r)
                   (runner_password r)) ;;;
        when (truthy (controller_ssl_verify startup_args))
          (set_runner (fun r =>
             mkRunner (runner_host r) (runner_token r)
                      (controller_ssl_verify startup_args)
                      (runner_username r) (runner_password r))) ;;;
        when (truthy (controller_username startup_args)
              && truthy (controller_password startup_args))
          (set_runner (fun r =>
             mkRunner (runner_host r) (runner_token r) (runner_verify_ssl r)
                      (controller_username startup_args)
                      (controller_password startup_args))) ;;;
        w <- get ;;
        let answer := get_config X (w_trace w) (w_runner w) in
        emit (EvGetConfig (w_runner w) answer) ;;;
        data <- lift_res answer ;;
        match dict_get "version" data with
        | None => raise (new_exc KeyError (py_repr X "version"))
        | Some version => log INFO ("AAP Version " +:+ py_str X version)
        end
      else ret tt
  end.

(** *** run, lines 88-117: building the startup arguments *)
Definition worker_mode (parsed_args : Args.t) : bool :=
  Args.worker parsed_args
  && truthy (Args.websocket_url parsed_args)
  && truthy (Args.id parsed_args).

Definition run_startup_args (parsed_args : Args.t) : M (StartupArgs * PyStr) :=
  let file_monitor := None in
  if worker_mode parsed_args then
    emit EvStartupLogging ;;;
    log INFO "Starting worker mode" ;;;
    h <- history ;;
    let answer := request_workload X h (Args.id parsed_args) in
    emit (EvRequestWorkload (Args.id parsed_args) answer) ;;;
    startup_args <- lift_res answer ;;
    match startup_args with
    | None =>
        raise (new_exc WebSocketExchangeException
                 "Error communicating with web socket server")
    | Some startup_args => ret (startup_args, file_monitor)
    end
  else
    let startup_args := StartupArgs_new X in
    variables <- load_vars parsed_args ;;
    let startup_args := set_variables variables startup_args in
    loaded <- load_rulebook parsed_args (Some startup_args) ;;
    let startup_args :=
      set_rulesets (fst loaded) (default startup_args (snd loaded)) in
    file_monitor <-
      (if Args.hot_reload parsed_args then
         h <- history ;;
         found <- os_path_exists (path_exists X h) (Args.rulebook parsed_args) ;;
         if found then
           log CRITICAL ("HOT-RELOAD: Hot-reload was requested, "
                         +:+ "will monitor for rulebook file changes") ;;;
           ret (Args.rulebook parsed_args)
         else ret file_monitor
       else ret file_monitor) ;;
    let startup_args :=
      if truthy (Args.inventory parsed_args)
      then set_inventory (Args.inventory parsed_args) startup_args
      else startup_args in
    let startup_args :=
      set_project_and_controller
        (Args.project_tarball parsed_args)
        (Args.controller_url parsed_args)
        (Args.controller_token parsed_args)
        (Args.controller_ssl_verify parsed_args)
        (Args.controller_username parsed_args)
        (Args.controller_password parsed_args)
        startup_args in
    ret (startup_args, file_monitor).

(** *** run, lines 119-126: validation of actions and variables, then
    the export of the substituted environment variables *)
Definition run_validate_and_export (startup_args : StartupArgs)
  : M StartupArgs :=
  h <- history ;;
  checked <- on_startup_args
               (validate_actions (path_exists X h) (decryptable X) ;;;
                validate_variables (decryptable X))
               startup_args ;;
  let startup_args := snd checked in
  decrypted <- lift_res (decrypted_context X (variables startup_args)) ;;
  let startup_args := set_variables decrypted startup_args in
  env <- lift_res (substitute_variables X (env_vars startup_args)
                                          (variables startup_args)) ;;
  let startup_args := set_env_vars env startup_args in
  for_each (env_vars startup_args) (fun kv =>
    setenv (fst kv) (py_str X (snd kv))) ;;;
  ret startup_args.

(** *** run, lines 128-129: the guarded controller check *)
Definition run_check_controller (startup_args : StartupArgs) : M unit :=
  when (check_controller_connection startup_args)
    (validate_controller_params startup_args).

(** *** run, lines 119-129 *)
Definition run_startup_checks (startup_args : StartupArgs) : M StartupArgs :=
  startup_args <- run_validate_and_export startup_args ;;
  run_check_controller startup_args ;;;
  ret startup_args.

(** *** run, lines 131-190: sources, driver, shutdown *)

(** [await event_log.put(item)], recorded with its receiver:
    [NullQueue.put] is [pass] and an unbounded [asyncio.Queue] accepts the
    item at once. *)
Definition event_log_put (event_log : EventLog) (item : PyValue) : M unit :=
  emit (EvPut event_log item).

Definition exit_entry : PyValue := VDict [("type", VStr "Exit")].

(** [await asyncio.wait([task], timeout=...)]: returns on completion or
    on timeout, raising in neither case. *)
Definition wait_for_task (t : Task) (timeout : Z) : M unit :=
  h <- history ;;
  emit (EvWait t timeout (wait_done X h t timeout)).

(** [await asyncio.gather] over all of [tasks] with
    [return_exceptions=True]: every task is awaited and what it raised
    is returned as its result. *)
Definition gather_return_exceptions (tasks : list Task) : M (list TaskResult) :=
  for_fold tasks [] (fun t results =>
    h <- history ;;
    let r := task_outcome X h t in
    emit (EvAwait t r) ;;;
    ret (results ++ [r])).

(** The condition of lines 176-178. *)
Definition is_source_failure (result : TaskResult) : bool :=
  match result with
  | Returned _ => false
  | Failed e =>
      isinstance_Exception (exc_class e)
      && negb (isinstance_CancelledError (exc_class e))
  end.

(** What one pass through the body of [run] decides at its end. *)
Inductive Next := Finished | Reload.

(** *** run, lines 163-190: the shutdown sequence and the verdict *)
Definition run_shutdown (event_log : EventLog) (feedback_task : option Task)
    (tasks : list Task) (should_reload : bool) : M Next :=
  event_log_put event_log exit_entry ;;;
  match feedback_task with
  | Some t => wait_for_task t (max_feedback_timeout X)
  | None => ret tt
  end ;;;
  log INFO "Cancelling event source tasks" ;;;
  for_each tasks (fun task => emit (EvCancel task)) ;;;
  let error_found := false in
  results <- gather_return_exceptions tasks ;;
  error_found <- for_fold results error_found (fun result error_found =>
    match result with
    | Failed e =>
        if is_source_failure result then
          log_exception_without_data (exc_class e) (exc_msg e)
            (exc_traceback e) ;;;
          ret true
        else ret error_found
    | Returned _ => ret error_found
    end) ;;
  log INFO "Main complete" ;;;
  h <- history ;;
  let closed := close_session X h in
  emit (EvCloseSession closed) ;;;
  lift_res closed ;;;
  if error_found then
    raise (new_exc PyException "One of the source plugins failed")
  else if should_reload then
    log CRITICAL "HOT-RELOAD! rules file changed, now restarting" ;;;
    ret Reload
  else ret Finished.

(** *** run, lines 131-161, followed by the shutdown sequence *)
Definition run_pipeline (parsed_args : Args.t) (startup_args : StartupArgs)
    (file_monitor : PyStr) : M Next :=
  event_log <-
    (if truthy (Args.websocket_url parsed_args)
     then q <- new_queue 0 ;; ret (AsyncQueue q)
     else ret NullQueue) ;;
  log INFO "Starting sources" ;;;
  spawned <- spawn_sources (rulesets startup_args) (variables startup_args)
               [Args.source_dir parsed_args]
               (Args.shutdown_delay parsed_args) ;;
  let '(tasks, ruleset_queues) := spawned in
  log INFO "Starting rules" ;;;
  feedback_task <-
    (if truthy (Args.websocket_url parsed_args)
     then t <- create_task (send_event_log_to_websocket event_log) ;;
          ret (Some t)
     else ret None) ;;
  let tasks :=
    match feedback_task with
    | Some t => tasks ++ [t]
    | None => tasks
    end in
  h <- history ;;
  let call :=
    mkDriverCall event_log ruleset_queues (variables startup_args)
      (inventory startup_args) parsed_args (project_data_file startup_args)
      file_monitor in
  let answer := run_rulesets X h call in
  emit (EvRunRulesets call answer) ;;;
  should_reload <- lift_res answer ;;
  run_shutdown event_log feedback_task tasks should_reload.

(** *** run, lines 88-129: everything before the first queue or task *)
Definition run_startup (parsed_args : Args.t) : M (StartupArgs * PyStr) :=
  loaded <- run_startup_args parsed_args ;;
  startup_args <- run_startup_checks (fst loaded) ;;
  ret (startup_args, snd loaded).

(** One pass through the body of [run], up to the recursive call. *)
Definition run_once (parsed_args : Args.t) : M Next :=
  started <- run_startup parsed_args ;;
  run_pipeline parsed_args (fst started) (snd started).

(** How [run] ends: it returns, it raises, or the reloads outlast the
    fuel given to the model. *)
Inductive Outcome :=
| Return
| Raised (e : PyExc)
| OutOfFuel.

(** *** run (lines 87-190): line 190 calls [run] again with the same
    namespace. *)
Fixpoint run (fuel : nat) (parsed_args : Args.t) (w : World)
  : Outcome * World :=
  match fuel with
  | O => (OutOfFuel, w)
  | S fuel' =>
      match run_once parsed_args w with
      | (Raise e, w') => (Raised e, w')
      | (Ok Finished, w') => (Return, w')
      | (Ok Reload, w') => run fuel' parsed_args w'
      end
  end.

End App.

(** * Reference definitions used to state the properties *)

Section SpawnPlan.

Variable variables : list (string * PyValue).
Variable source_dirs : list PyStr.
Variable shutdown_delay : Q.

(** The task created for the [i]-th source of a group whose first task
    gets identity [first]. *)
Definition group_tasks (queue first : nat) (srcs : list EventSource)
  : list Task :=
  imap (fun i source =>
          mkTask (first + i)
            (start_source source source_dirs variables queue shutdown_delay))
       srcs.

(** Queue and tasks of every group when object identities start at [n]. *)
Fixpoint spawn_plan (n : nat) (rulesets : list RuleSet)
  : list (RuleSetQueue * list Task) :=
  match rulesets with
  | [] => []
  | ruleset :: rest =>
      (mkRuleSetQueue ruleset n, group_tasks n (S n) (sources ruleset))
      :: spawn_plan (S n + length (sources ruleset)) rest
  end.

Definition group_events (g : RuleSetQueue * list Task) : list Event :=
  EvNewQueue (rsq_queue (fst g)) 1 :: map EvCreateTask (snd g).

Definition plan_queues (plan : list (RuleSetQueue * list Task))
    (queues : gmap nat Z) : gmap nat Z :=
  fold_left (fun m g => <[rsq_queue (fst g) := 1%Z]> m) plan queues.

Definition plan_size (plan : list (RuleSetQueue * list Task)) : nat :=
  sum_list (map (fun g => S (length (snd g))) plan).

End SpawnPlan.

(** ** Startup validation, action by action *)

(** The (rule, action) pairs in the order [validate_actions] visits them. *)
Definition all_actions (startup_args : StartupArgs) : list (Rule * Action) :=
  ruleset ← rulesets startup_args;
  rule ← rules ruleset;
  a ← actions rule;
  [(rule, a)].

Definition needs_inventory (a : Action) : bool :=
  py_in (action a) INVENTORY_ACTIONS.

Definition needs_controller (a : Action) : bool :=
  py_in (action a) CONTROLLER_ACTIONS.

(** The three ways one action can stop the validation. *)
Definition inventory_check_fails (fs : string -> bool)
    (startup_args : StartupArgs) (a : Action) : bool :=
  needs_inventory a
  && match inventory startup_args with
     | Some path => negb (truthy (Some path)) || negb (fs path)
     | None => true
     end.

Definition controller_check_fails (startup_args : StartupArgs) (a : Action)
  : bool :=
  needs_controller a
  && negb (truthy (controller_url startup_args))
  && negb (truthy (controller_token startup_args)).

Definition vault_check_fails (decryptable : PyValue -> Res unit)
    (startup_args : StartupArgs) (a : Action) : bool :=
  check_vault startup_args && is_raise (decryptable (action_args a)).

(** The attributes the checks read; [validate_actions] writes none of them. *)
Definition same_config (a b : StartupArgs) : Prop :=
  inventory a = inventory b
  /\ controller_url a = controller_url b
  /\ controller_token a = controller_token b
  /\ check_vault a = check_vault b.

(** The exception class [validate_actions] ends with, if it raises. *)
Definition raises_class {S A} (r : Res A * S) (c : ExcClass) : Prop :=
  exists e, fst r = Raise e /\ exc_class e = c.

(** What [validate_action] leaves in the startup arguments. *)
Definition mark_controller (a : Action) (startup_args : StartupArgs)
  : StartupArgs :=
  if needs_controller a
  then set_check_controller_connection true startup_args
  else startup_args.

(** ** Concrete rulebooks and collaborators used in examples *)

Definition playbook_action : Action := mkAction "run_playbook" VNone.
Definition job_template_action : Action := mkAction "run_job_template" VNone.
Definition debug_action : Action := mkAction "debug" VNone.

Definition one_rule (acts : list Action) : list RuleSet :=
  [mkRuleSet "demo" [mkEventSource "range" VNone] [mkRule "r1" acts]].

(** Startup arguments with nothing configured besides the rulesets. *)
Definition bare_args (rss : list RuleSet) : StartupArgs :=
  mkStartupArgs rss [] [] None None None None None None None false false.

Definition no_files : string -> bool := fun _ => false.
Definition all_decryptable : PyValue -> Res unit := fun _ => Ok tt.

(** ** The trace of one pass through [run] *)

Section Reference.

Variable X : Collaborators.

(** Results of awaiting [tasks] in order, starting from history [h]. *)
Fixpoint gather_results (h : list Event) (tasks : list Task)
  : list TaskResult :=
  match tasks with
  | [] => []
  | t :: rest =>
      let r := task_outcome X h t in
      r :: gather_results (h ++ [EvAwait t r]) rest
  end.

(** Records written by [log_exception_without_data]. *)
Definition exception_records (c : ExcClass) (v : string)
    (tb : option (list Frame)) : list (Level * string) :=
  (ERROR, class_name c +:+ ": " +:+ v)
  :: match tb with
     | None => []
     | Some frames =>
         map (fun frame =>
                (ERROR, frame_filename frame +:+ ":"
                        +:+ str_nat (frame_lineno frame)
                        +:+ " " +:+ frame_name frame))
             (rev frames)
     end.

Definition failure_records (results : list TaskResult)
  : list (Level * string) :=
  concat (map (fun result =>
                 match result with
                 | Failed e =>
                     if is_source_failure result
                     then exception_records (exc_class e) (exc_msg e)
                            (exc_traceback e)
                     else []
                 | Returned _ => []
                 end) results).

Definition setenv_events (env : list (string * PyValue)) : list Event :=
  map (fun kv => EvSetEnv (fst kv) (py_str X (snd kv)) (Ok tt)) env.

Definition exported (env : list (string * PyValue))
    (environ : gmap string string) : gmap string string :=
  fold_left (fun m kv => <[fst kv := py_str X (snd kv)]> m) env environ.

(** Events from the driver's return to the end of [run]. *)
Definition shutdown_wait (h : list Event) (event_log : EventLog)
    (feedback_task : option Task) : list Event :=
  match feedback_task with
  | Some t =>
      [EvWait t (max_feedback_timeout X)
         (wait_done X (h ++ [EvPut event_log exit_entry]) t
            (max_feedback_timeout X))]
  | None => []
  end.

Definition shutdown_prefix (h : list Event) (event_log : EventLog)
    (feedback_task : option Task) (tasks : list Task) : list Event :=
  [EvPut event_log exit_entry]
  ++ shutdown_wait h event_log feedback_task
  ++ map EvCancel tasks.

Definition shutdown_results (h : list Event) (event_log : EventLog)
    (feedback_task : option Task) (tasks : list Task) : list TaskResult :=
  gather_results (h ++ shutdown_prefix h event_log feedback_task tasks) tasks.

Definition shutdown_closed (h : list Event) (event_log : EventLog)
    (feedback_task : option Task) (tasks : list Task) : Res unit :=
  close_session X
    (h ++ shutdown_prefix h event_log feedback_task tasks
       ++ zip_with EvAwait tasks
            (shutdown_results h event_log feedback_task tasks)).

Definition shutdown_events (h : list Event) (event_log : EventLog)
    (feedback_task : option Task) (tasks : list Task) : list Event :=
  shutdown_prefix h event_log feedback_task tasks
  ++ zip_with EvAwait tasks (shutdown_results h event_log feedback_task tasks)
  ++ [EvCloseSession (shutdown_closed h event_log feedback_task tasks)].

Definition aggregate_failure : PyExc :=
  new_exc PyException "One of the source plugins failed".

Definition shutdown_outcome (h : list Event) (event_log : EventLog)
    (feedback_task : option Task) (tasks : list Task) (should_reload : bool)
  : Res Next :=
  match shutdown_closed h event_log feedback_task tasks with
  | Raise e => Raise e
  | Ok _ =>
      if existsb is_source_failure
           (shutdown_results h event_log feedback_task tasks)
      then Raise aggregate_failure
      else if should_reload then Ok Reload else Ok Finished
  end.

(** Objects created between the end of startup and the driver call. *)
Section Pipeline.

Variable parsed_args : Args.t.
Variable startup_args : StartupArgs.
Variable file_monitor : PyStr.
Variable w : World.

Definition pipeline_event_log : EventLog :=
  if truthy (Args.websocket_url parsed_args)
  then AsyncQueue (w_next_id w) else NullQueue.

Definition pipeline_first_id : nat :=
  if truthy (Args.websocket_url parsed_args)
  then S (w_next_id w) else w_next_id w.

Definition pipeline_plan : list (RuleSetQueue * list Task) :=
  spawn_plan (variables startup_args) [Args.source_dir parsed_args]
    (Args.shutdown_delay parsed_args) pipeline_first_id
    (rulesets startup_args).

Definition pipeline_feedback : option Task :=
  if truthy (Args.websocket_url parsed_args)
  then Some (mkTask (pipeline_first_id + plan_size pipeline_plan)
               (send_event_log_to_websocket pipeline_event_log))
  else None.

Definition pipeline_tasks : list Task :=
  concat (map snd pipeline_plan) ++ option_list pipeline_feedback.

Definition pipeline_start : list Event :=
  (if truthy (Args.websocket_url parsed_args)
   then [EvNewQueue (w_next_id w) 0] else [])
  ++ concat (map group_events pipeline_plan)
  ++ map EvCreateTask (option_list pipeline_feedback).

Definition pipeline_call : DriverCall :=
  mkDriverCall pipeline_event_log (map fst pipeline_plan)
    (variables startup_args) (inventory startup_args) parsed_args
    (project_data_file startup_args) file_monitor.

Definition pipeline_answer : Res bool :=
  run_rulesets X (w_trace w ++ pipeline_start) pipeline_call.

Definition pipeline_history : list Event :=
  w_trace w ++ pipeline_start ++ [EvRunRulesets pipeline_call pipeline_answer].

Definition pipeline_events : list Event :=
  pipeline_start
  ++ [EvRunRulesets pipeline_call pipeline_answer]
  ++ match pipeline_answer with
     | Raise _ => []
     | Ok _ =>
         shutdown_events pipeline_history pipeline_event_log
           pipeline_feedback pipeline_tasks
     end.

Definition pipeline_outcome : Res Next :=
  match pipeline_answer with
  | Raise e => Raise e
  | Ok should_reload =>
      shutdown_outcome pipeline_history pipeline_event_log pipeline_feedback
        pipeline_tasks should_reload
  end.

End Pipeline.

End Reference.

(** ** Classifying trace events *)

(** Events of the startup part of [run] (lines 88-129). *)
Definition startup_event (e : Event) : bool :=
  match e with
  | EvStartupLogging | EvRequestWorkload _ _ | EvSetEnv _ _ _
  | EvGetConfig _ _ =>
      true
  | _ => false
  end.

Definition is_create_task (e : Event) : bool :=
  match e with
  | EvCreateTask _ => true
  | _ => false
  end.

Definition is_driver_call (e : Event) : bool :=
  match e with
  | EvRunRulesets _ _ => true
  | _ => false
  end.

(** Tasks created along a trace, in creation order. *)
Definition created_tasks (tr : list Event) : list Task :=
  omap (fun e => match e with EvCreateTask t => Some t | _ => None end) tr.

(** [w'] differs from [w] at most in the logger's records. *)
Definition same_but_log (w w' : World) : Prop :=
  w_trace w' = w_trace w
  /\ w_environ w' = w_environ w
  /\ w_runner w' = w_runner w
  /\ w_queues w' = w_queues w
  /\ w_next_id w' = w_next_id w.

(** The trace of [w'] extends that of [w] by events satisfying [P]. *)
Definition grows (P : Event -> bool) (w w' : World) : Prop :=
  exists delta, w_trace w' = w_trace w ++ delta /\ forallb P delta = true.

(** Whether the rulebook path exists when [run] looks for it. *)
Definition rulebook_on_disk (X : Collaborators) (parsed_args : Args.t)
    (w : World) : bool :=
  match Args.rulebook parsed_args with
  | Some path => path_exists X (w_trace w) path
  | None => false
  end.

(** The three conditions under which [run] sets [file_monitor]. *)
Definition monitoring_armed (X : Collaborators) (parsed_args : Args.t)
    (w : World) : bool :=
  negb (worker_mode parsed_args)
  && Args.hot_reload parsed_args
  && rulebook_on_disk X parsed_args w.

(** The controller client after lines 318-328 of
    [validate_controller_params]. *)
Definition configured_runner (startup_args : StartupArgs)
    (r : JobTemplateRunner) : JobTemplateRunner :=
  let r1 :=
    mkRunner (controller_url startup_args) (controller_token startup_args)
      (runner_verify_ssl r) (runner_username r) (runner_password r) in
  let r2 :=
    if truthy (controller_ssl_verify startup_args)
    then mkRunner (runner_host r1) (runner_token r1)
           (controller_ssl_verify startup_args)
           (runner_username r1) (runner_password r1)
    else r1 in
  if truthy (controller_username startup_args)
     && truthy (controller_password startup_args)
  then mkRunner (runner_host r2) (runner_token r2) (runner_verify_ssl r2)
         (controller_username startup_args) (controller_password startup_args)
  else r2.

(** Outcome and log record of the probe, given what [get_config] answered. *)
Definition probe_outcome (X : Collaborators)
    (answer : Res (list (string * PyValue))) : Res unit :=
  match answer with
  | Raise e => Raise e
  | Ok data =>
      match dict_get "version" data with
      | None => Raise (new_exc KeyError (py_repr X "version"))
      | Some _ => Ok tt
      end
  end.

Definition probe_records (X : Collaborators)
    (answer : Res (list (string * PyValue))) : list (Level * string) :=
  match answer with
  | Raise _ => []
  | Ok data =>
      match dict_get "version" data with
      | None => []
      | Some version => [(INFO, "AAP Version " +:+ py_str X version)]
      end
  end.

(** ** A sample installation: one rulebook file, a quiet driver *)

Definition is_get_config (e : Event) : bool :=
  match e with
  | EvGetConfig _ _ => true
  | _ => false
  end.

(** Collaborators for a rulebook [rules.yml] whose single rule has the
    actions [acts].  No URL is accepted as valid; the driver returns
    [reload]; awaited source tasks report their cancellation, and the
    feedback task is given by [feedback_outcome]. *)
Definition sample_collaborators (acts : list Action) (reload : bool)
    (feedback_outcome : TaskResult) : Collaborators :=
  {| decryptable := all_decryptable;
     decrypted_context := fun vars => Ok vars;
     substitute_variables := fun env _ => Ok env;
     validate_url := fun _ _ => false;
     has_vaulted_str := fun _ => false;
     py_str := fun v => match v with VStr s => s | _ => "None" end;
     py_repr := fun s => "'" +:+ s +:+ "'";
     split_strip := fun s => [s];
     putenv := fun _ _ _ => Ok tt;
     path_exists := fun _ path => String.eqb path "rules.yml";
     read_file := fun _ _ => Ok "";
     yaml_vars := fun _ => Ok [];
     parse_rulebook := fun _ _ => Ok (one_rule acts);
     has_rulebook := fun _ _ => false;
     collection_load_rulebook := fun _ _ => Ok (false, []);
     request_workload := fun _ _ => Ok None;
     StartupArgs_new := bare_args [];
     max_feedback_timeout := 5;
     get_config := fun _ _ => Ok [("version", VStr "4.4")];
     close_session := fun _ => Ok tt;
     run_rulesets := fun _ _ => Ok reload;
     wait_done := fun _ _ _ => false;
     task_outcome := fun _ t =>
       match task_coro t with
       | send_event_log_to_websocket _ => feedback_outcome
       | start_source _ _ _ _ _ => Failed (new_exc CancelledError "")
       end |}.

Definition sample_args (websocket_url controller_url : PyStr)
    (hot_reload : bool) : Args.t :=
  Args.mk false websocket_url None (Some "rules.yml") None None hot_reload
    None None controller_url None None None None None 60.

Definition sample_world : World :=
  mkWorld [] ∅ [] (mkRunner None None None None None) ∅ 0.

Definition cancelled : TaskResult := Failed (new_exc CancelledError "").

Definition connection_lost : TaskResult :=
  Failed (new_exc (OtherException "ConnectionClosed") "socket closed").

(** Startup arguments that ask for the controller check of [url]. *)
Definition controller_args (url : string) : StartupArgs :=
  mkStartupArgs [] [] [] None None (Some url) (Some "token") None None None
    true false.

(** A pass with a feedback task that fails and hot-reload requested. *)
Definition sample_X : Collaborators :=
  sample_collaborators [debug_action] false connection_lost.

Definition sample_run_args : Args.t := sample_args (Some "ws://hub") None true.

Definition sample_trace : list Event :=
  Eval vm_compute in
    w_trace (snd (run_once sample_X sample_run_args sample_world)).

Definition sample_call : DriverCall :=
  Eval vm_compute in
    match run_startup sample_X sample_run_args sample_world with
    | (Ok (startup_args, file_monitor), w1) =>
        pipeline_call sample_run_args startup_args file_monitor w1
    | (Raise _, _) =>
        mkDriverCall NullQueue [] [] None sample_run_args None None
    end.

(** ** Further sample inputs *)

(** The message of the KeyError [load_vars] raises for [env_var]. *)
Definition missing_env_var (X : Collaborators) (env_var : string) : PyExc :=
  new_exc KeyError
    (py_repr X ("Could not find environment variable " +:+ py_repr X env_var)).

(** [X] with another driver answer. *)
Definition with_driver (answer : Res bool) (X : Collaborators)
  : Collaborators :=
  {| decryptable := decryptable X;
     decrypted_context := decrypted_context X;
     substitute_variables := substitute_variables X;
     validate_url := validate_url X;
     has_vaulted_str := has_vaulted_str X;
     py_str := py_str X;
     py_repr := py_repr X;
     split_strip := split_strip X;
     putenv := putenv X;
     path_exists := path_exists X;
     read_file := read_file X;
     yaml_vars := yaml_vars X;
     parse_rulebook := parse_rulebook X;
     has_rulebook := has_rulebook X;
     collection_load_rulebook := collection_load_rulebook X;
     request_workload := request_workload X;
     StartupArgs_new := StartupArgs_new X;
     max_feedback_timeout := max_feedback_timeout X;
     get_config := get_config X;
     close_session := close_session X;
     run_rulesets := fun _ _ => answer;
     wait_done := wait_done X;
     task_outcome := task_outcome X |}.

Definition driver_error : PyExc :=
  new_exc (OtherException "RuntimeError") "engine stopped".

Definition failing_X : Collaborators := with_driver (Raise driver_error) sample_X.

Definition failing_trace : list Event :=
  Eval vm_compute in
    w_trace (snd (run_once failing_X sample_run_args sample_world)).

(** Worker mode against a server that answers with nothing. *)
Definition worker_args : Args.t :=
  Args.mk true (Some "ws://hub") (Some "7") None None None false
    None None None None None None None None 60.

(** Environment variables requested on the command line. *)
Definition env_args (names : string) : Args.t :=
  Args.mk false None None None None (Some names) false
    None None None None None None None None 60.

Definition home_world : World :=
  mkWorld [] {["HOME" := "/root"]} [] (mkRunner None None None None None) ∅ 0.

Definition export_args : StartupArgs :=
  mkStartupArgs [] [] [("LANG", VStr "C")] None None None None None None None
    false false.

Definition missing_rulebook_args : Args.t :=
  Args.mk false None None (Some "absent.yml") None None false
    None None None None None None None None 60.

(** A rulebook with the actions [acts], a controller URL and no check
    requested yet. *)
Definition controller_args_with (acts : list Action) : StartupArgs :=
  mkStartupArgs (one_rule acts) [] [] None None (Some "https://aap") None
    None None None false false.

(** Collaborators that accept every controller URL. *)
Definition valid_url_X : Collaborators :=
  {| decryptable := decryptable sample_X;
     decrypted_context := decrypted_context sample_X;
     substitute_variables := substitute_variables sample_X;
     validate_url := fun _ _ => true;
     has_vaulted_str := has_vaulted_str sample_X;
     py_str := py_str sample_X;
     py_repr := py_repr sample_X;
     split_strip := split_strip sample_X;
     putenv := putenv sample_X;
     path_exists := path_exists sample_X;
     read_file := read_file sample_X;
     yaml_vars := yaml_vars sample_X;
     parse_rulebook := parse_rulebook sample_X;
     has_rulebook := has_rulebook sample_X;
     collection_load_rulebook := collection_load_rulebook sample_X;
     request_workload := request_workload sample_X;
     StartupArgs_new := StartupArgs_new sample_X;
     max_feedback_timeout := max_feedback_timeout sample_X;
     get_config := get_config sample_X;
     close_session := close_session sample_X;
     run_rulesets := run_rulesets sample_X;
     wait_done := wait_done sample_X;
     task_outcome := task_outcome sample_X |}.

(** Events of the shutdown sequence. *)
Definition is_shutdown_event (e : Event) : bool :=
  match e with
  | EvPut _ _ | EvWait _ _ _ | EvCancel _ | EvAwait _ _ | EvCloseSession _ =>
      true
  | _ => false
  end.

Definition is_spawn_event (e : Event) : bool :=
  match e with
  | EvNewQueue _ _ | EvCreateTask _ => true
  | _ => false
  end.

(** What a trace records of awaits, cancellations and session closes. *)
Definition awaited (tr : list Event) : list (Task * TaskResult) :=
  omap (fun e => match e with EvAwait t r => Some (t, r) | _ => None end) tr.

Definition cancelled_tasks (tr : list Event) : list Task :=
  omap (fun e => match e with EvCancel t => Some t | _ => None end) tr.

Definition close_answers (tr : list Event) : list (Res unit) :=
  omap (fun e => match e with EvCloseSession r => Some r | _ => None end) tr.

(** A pass whose driver asks for a reload while the feedback task failed. *)
Definition reload_X : Collaborators :=
  sample_collaborators [debug_action] true connection_lost.

Definition reload_trace : list Event :=
  Eval vm_compute in
    w_trace (snd (run_once reload_X sample_run_args sample_world)).
(** * Properties *)

(** ** Running a computation one step at a time *)

Section Steps.

Context {S A B : Type}.

Lemma bind_run (m : SE S A) (k : A -> SE S B) (s : S) :
  bind m k s
  = match m s with
    | (Ok a, s') => k a s'
    | (Raise e, s') => (Raise e, s')
    end.
Proof. reflexivity. Qed.

Lemma ret_run (a : A) (s : S) : ret a s = (Ok a, s).
Proof. reflexivity. Qed.

Lemma raise_run (e : PyExc) (s : S) : raise (A := A) e s = (Raise e, s).
Proof. reflexivity. Qed.

Lemma get_run (s : S) : get s = (Ok s, s).
Proof. reflexivity. Qed.

Lemma modify_run (f : S -> S) (s : S) : modify f s = (Ok tt, f s).
Proof. reflexivity. Qed.

Lemma lift_res_run (r : Res A) (s : S) : lift_res r s = (r, s).
Proof. reflexivity. Qed.

Lemma when_true (m : SE S unit) : when true m = m.
Proof. reflexivity. Qed.

Lemma when_false (m : SE S unit) (s : S) : when false m s = (Ok tt, s).
Proof. reflexivity. Qed.

End Steps.

Lemma emit_run e w :
  emit e w = (Ok tt, mkWorld (w_trace w ++ [e]) (w_environ w) (w_log w)
                       (w_runner w) (w_queues w) (w_next_id w)).
Proof. reflexivity. Qed.

Lemma log_run lvl msg w :
  log lvl msg w = (Ok tt, mkWorld (w_trace w) (w_environ w)
                            (w_log w ++ [(lvl, msg)])
                            (w_runner w) (w_queues w) (w_next_id w)).
Proof. reflexivity. Qed.

Lemma history_run w : history w = (Ok (w_trace w), w).
Proof. reflexivity. Qed.

Lemma set_runner_run f w :
  set_runner f w = (Ok tt, mkWorld (w_trace w) (w_environ w) (w_log w)
                             (f (w_runner w)) (w_queues w) (w_next_id w)).
Proof. reflexivity. Qed.

Lemma new_queue_run maxsize w :
  new_queue maxsize w
  = (Ok (w_next_id w),
     mkWorld (w_trace w ++ [EvNewQueue (w_next_id w) maxsize]) (w_environ w)
       (w_log w) (w_runner w) (<[w_next_id w := maxsize]> (w_queues w))
       (Datatypes.S (w_next_id w))).
Proof. reflexivity. Qed.

Lemma create_task_run coro w :
  create_task coro w
  = (Ok (mkTask (w_next_id w) coro),
     mkWorld (w_trace w ++ [EvCreateTask (mkTask (w_next_id w) coro)])
       (w_environ w) (w_log w) (w_runner w) (w_queues w)
       (Datatypes.S (w_next_id w))).
Proof. reflexivity. Qed.

Ltac run_steps :=
  repeat (progress (rewrite ?bind_run, ?ret_run, ?raise_run, ?get_run,
                      ?modify_run, ?lift_res_run, ?when_true, ?when_false,
                      ?emit_run, ?log_run, ?history_run, ?set_runner_run,
                      ?new_queue_run, ?create_task_run;
                    cbn [fst snd w_trace w_environ w_log w_runner w_queues
                         w_next_id])).

Section Spawn.

Variable variables : list (string * PyValue).
Variable source_dirs : list PyStr.
Variable shutdown_delay : Q.

Local Abbreviation group_tasks := (group_tasks variables source_dirs shutdown_delay).
Local Abbreviation spawn_plan := (spawn_plan variables source_dirs shutdown_delay).

Lemma group_tasks_length queue first srcs :
  length (group_tasks queue first srcs) = length srcs.
Proof. unfold group_tasks. by rewrite length_imap. Qed.

Lemma group_tasks_cons queue first s srcs :
  group_tasks queue first (s :: srcs)
  = mkTask first (start_source s source_dirs variables queue shutdown_delay)
    :: group_tasks queue (S first) srcs.
Proof.
  unfold group_tasks. simpl. rewrite Nat.add_0_r. f_equal.
  apply imap_ext. intros i x _. simpl. f_equal. lia.
Qed.

Lemma spawn_group_sources queue srcs : forall tasks w,
  for_fold srcs tasks (fun source tasks =>
      task <- create_task
                (start_source source source_dirs variables queue
                              shutdown_delay) ;;
      ret (tasks ++ [task])) w
  = (Ok (tasks ++ group_tasks queue (w_next_id w) srcs),
     mkWorld (w_trace w
              ++ map EvCreateTask (group_tasks queue (w_next_id w) srcs))
             (w_environ w) (w_log w) (w_runner w) (w_queues w)
             (w_next_id w + length srcs)).
Proof.
  induction srcs as [|s srcs IH]; intros tasks w.
  - simpl. rewrite ret_run, !app_nil_r, Nat.add_0_r. by destruct w.
  - rewrite group_tasks_cons. simpl.
    rewrite bind_run, bind_run, create_task_run, ret_run, IH. simpl.
    rewrite <- !app_assoc. simpl. do 3 f_equal. lia.
Qed.

Lemma spawn_loop rulesets : forall tasks ruleset_queues w,
  for_fold rulesets (tasks, ruleset_queues) (fun ruleset acc =>
    let '(tasks, ruleset_queues) := acc in
    source_queue <- new_queue 1 ;;
    tasks <- for_fold (sources ruleset) tasks (fun source tasks =>
      task <- create_task
                (start_source source source_dirs variables source_queue
                              shutdown_delay) ;;
      ret (tasks ++ [task])) ;;
    ret (tasks, ruleset_queues ++ [mkRuleSetQueue ruleset source_queue])) w
  = (Ok (tasks ++ concat (map snd (spawn_plan (w_next_id w) rulesets)),
         ruleset_queues ++ map fst (spawn_plan (w_next_id w) rulesets)),
     mkWorld (w_trace w
              ++ concat (map group_events (spawn_plan (w_next_id w) rulesets)))
             (w_environ w) (w_log w) (w_runner w)
             (plan_queues (spawn_plan (w_next_id w) rulesets) (w_queues w))
             (w_next_id w + plan_size (spawn_plan (w_next_id w) rulesets))).
Proof.
  induction rulesets as [|ruleset rest IH]; intros tasks ruleset_queues w.
  - simpl. rewrite ret_run. unfold plan_size. simpl.
    rewrite !app_nil_r, Nat.add_0_r. by destruct w.
  - simpl for_fold. rewrite bind_run, bind_run, new_queue_run, bind_run.
    rewrite spawn_group_sources, ret_run, IH. simpl.
    unfold plan_size. simpl. rewrite group_tasks_length.
    rewrite <- !app_assoc. simpl.
    do 3 f_equal. lia.
Qed.

Lemma spawn_plan_rulesets rulesets : forall n,
  map rsq_ruleset (map fst (spawn_plan n rulesets)) = rulesets.
Proof. induction rulesets as [|r rest IH]; intros n; simpl; [done|]. by rewrite IH. Qed.

Lemma spawn_plan_queue_ge rulesets : forall n q,
  q ∈ map rsq_queue (map fst (spawn_plan n rulesets)) -> n <= q.
Proof.
  induction rulesets as [|r rest IH]; intros n q; simpl.
  - by intros ?%elem_of_nil.
  - intros [->|Hin]%elem_of_cons; [lia|]. apply IH in Hin. lia.
Qed.

Lemma spawn_plan_queues_nodup rulesets : forall n,
  NoDup (map rsq_queue (map fst (spawn_plan n rulesets))).
Proof.
  induction rulesets as [|r rest IH]; intros n; simpl; constructor; [|done].
  intros Hin%spawn_plan_queue_ge. lia.
Qed.

Lemma group_tasks_ids queue first srcs :
  map task_id (group_tasks queue first srcs) = seq first (length srcs).
Proof.
  revert first. induction srcs as [|s srcs IH]; intros first; [done|].
  rewrite group_tasks_cons. simpl. by rewrite IH.
Qed.

Lemma spawn_plan_task_ge rulesets : forall n i,
  i ∈ map task_id (concat (map snd (spawn_plan n rulesets))) -> n < i.
Proof.
  induction rulesets as [|r rest IH]; intros n i; simpl.
  - by intros ?%elem_of_nil.
  - rewrite map_app, group_tasks_ids.
    intros [Hin|Hin]%elem_of_app.
    + apply elem_of_seq in Hin. lia.
    + apply IH in Hin. lia.
Qed.

Lemma plan_size_cons (g : RuleSetQueue * list Task) plan :
  plan_size (g :: plan) = S (length (snd g)) + plan_size plan.
Proof. reflexivity. Qed.

Lemma spawn_plan_task_lt rulesets : forall n i,
  i ∈ map task_id (concat (map snd (spawn_plan n rulesets))) ->
  i < n + plan_size (spawn_plan n rulesets).
Proof.
  induction rulesets as [|r rest IH]; intros n i.
  - by intros ?%elem_of_nil.
  - cbn [spawn_plan map concat]. rewrite plan_size_cons. cbn [snd].
    rewrite map_app, group_tasks_ids, group_tasks_length.
    intros [Hin|Hin]%elem_of_app.
    + apply elem_of_seq in Hin. lia.
    + apply IH in Hin. lia.
Qed.

Lemma spawn_plan_tasks_nodup rulesets : forall n,
  NoDup (map task_id (concat (map snd (spawn_plan n rulesets)))).
Proof.
  induction rulesets as [|r rest IH]; intros n; simpl; [constructor|].
  rewrite map_app, group_tasks_ids. apply NoDup_app. split; [apply NoDup_seq|].
  split; [|done].
  intros i Hi%elem_of_seq Hin%spawn_plan_task_ge. lia.
Qed.

Lemma spawn_plan_bound rulesets : forall n,
  Forall2 (fun p g =>
             map task_coro g
             = map (fun s => start_source s source_dirs variables
                               (rsq_queue p) shutdown_delay)
                   (sources (rsq_ruleset p)))
          (map fst (spawn_plan n rulesets))
          (map snd (spawn_plan n rulesets)).
Proof.
  induction rulesets as [|r rest IH]; intros n; simpl; constructor; [|done].
  simpl. generalize (S n). induction (sources r) as [|s srcs IHs]; intros m.
  - done.
  - rewrite group_tasks_cons. simpl. by rewrite IHs.
Qed.

Lemma spawn_plan_task_count rulesets : forall n,
  length (concat (map snd (spawn_plan n rulesets)))
  = sum_list (map (fun r => length (sources r)) rulesets).
Proof.
  induction rulesets as [|r rest IH]; intros n; simpl; [done|].
  by rewrite length_app, group_tasks_length, IH.
Qed.

Lemma plan_queues_lookup plan : forall queues q,
  q ∈ map rsq_queue (map fst plan) ->
  plan_queues plan queues !! q = Some 1%Z.
Proof.
  unfold plan_queues.
  induction plan as [|g plan IH] using rev_ind; intros queues q; simpl.
  - by intros ?%elem_of_nil.
  - rewrite !map_app, fold_left_app. simpl.
    destruct (decide (q = rsq_queue (fst g))) as [->|Hne].
    + intros _. by rewrite lookup_insert_eq.
    + rewrite lookup_insert_ne by done.
      intros [Hin|Hin]%elem_of_app; [by apply IH|].
      apply list_elem_of_singleton in Hin. done.
Qed.

Lemma zip_with_fst_snd {A B C} (f : A -> B -> C) (l : list (A * B)) :
  zip_with f (map fst l) (map snd l) = map (fun x => f (fst x) (snd x)) l.
Proof. induction l as [|x l IH]; simpl; [done|]. by rewrite IH. Qed.

End Spawn.

(** C1.  [spawn_sources] never raises.  It returns one (ruleset, queue)
    pair per ruleset, in order, and one task per source declaration; the
    trace it adds consists, for each ruleset in turn, of the allocation of
    that ruleset's queue with capacity 1 followed by the creation of one
    task per source of the ruleset, each task running [start_source] on
    that same queue.  The queues of different rulesets are different
    objects with fresh identities, each registered with capacity 1, and
    all task handles are different. *)
Theorem spawn_sources_one_queue_per_ruleset
    (rulesets : list RuleSet) (variables : list (string * PyValue))
    (source_dirs : list PyStr) (shutdown_delay : Q) (w : World) :
  exists (groups : list (list Task)) (pairs : list RuleSetQueue) (w' : World),
    spawn_sources rulesets variables source_dirs shutdown_delay w
      = (Ok (concat groups, pairs), w')
    /\ map rsq_ruleset pairs = rulesets
    /\ Forall2 (fun p g =>
                  map task_coro g
                  = map (fun s => start_source s source_dirs variables
                                    (rsq_queue p) shutdown_delay)
                        (sources (rsq_ruleset p)))
               pairs groups
    /\ w_trace w'
       = w_trace w
         ++ concat (zip_with (fun p g =>
                                EvNewQueue (rsq_queue p) 1
                                :: map EvCreateTask g)
                             pairs groups)
    /\ NoDup (map rsq_queue pairs)
    /\ Forall (fun p => w_next_id w <= rsq_queue p
                        /\ w_queues w' !! rsq_queue p = Some 1%Z) pairs
    /\ NoDup (map task_id (concat groups))
    /\ length (concat groups)
       = sum_list (map (fun r => length (sources r)) rulesets)
    /\ length pairs = length rulesets.
Proof.
  set (plan := spawn_plan variables source_dirs shutdown_delay
                 (w_next_id w) rulesets).
  exists (map snd plan), (map fst plan).
  eexists. unfold spawn_sources.
  rewrite spawn_loop. fold plan. simpl.
  split; [reflexivity|]. simpl.
  split; [apply spawn_plan_rulesets|].
  split; [apply spawn_plan_bound|].
  split; [by rewrite zip_with_fst_snd|].
  split; [apply spawn_plan_queues_nodup|].
  split.
  { apply Forall_forall. intros p Hp.
    assert (rsq_queue p ∈ map rsq_queue (map fst plan)) as Hq
      by (by apply list_elem_of_fmap_2).
    split; [by apply spawn_plan_queue_ge in Hq|].
    by apply plan_queues_lookup. }
  split; [apply spawn_plan_tasks_nodup|].
  split; [apply spawn_plan_task_count|].
  transitivity (length (map rsq_ruleset (map fst plan)));
    [by rewrite !length_map|].
  unfold plan. by rewrite spawn_plan_rulesets.
Qed.

(** ** Startup validation of actions *)

Lemma for_each_app {S A} (l1 l2 : list A) (body : A -> SE S unit) (s : S) :
  for_each (l1 ++ l2) body s = (for_each l1 body ;;; for_each l2 body) s.
Proof.
  revert s. induction l1 as [|x l1 IH]; intros s; simpl.
  - reflexivity.
  - rewrite !bind_run. destruct (body x s) as [[[]|e] s']; [|reflexivity].
    rewrite IH. by rewrite bind_run.
Qed.

Lemma for_each_bind {S A B} (l : list A) (f : A -> list B)
    (body : B -> SE S unit) (s : S) :
  for_each l (fun x => for_each (f x) body) s = for_each (l ≫= f) body s.
Proof.
  revert s. induction l as [|x l IH]; intros s; simpl; [reflexivity|].
  rewrite for_each_app, !bind_run.
  destruct (for_each (f x) body s) as [[[]|e] s']; [apply IH|reflexivity].
Qed.

Lemma for_each_ext {S A} (l : list A) (f g : A -> SE S unit) (s : S) :
  (forall x s', f x s' = g x s') -> for_each l f s = for_each l g s.
Proof.
  intros Hfg. revert s. induction l as [|x l IH]; intros s; simpl; [done|].
  rewrite !bind_run, Hfg. destruct (g x s) as [[[]|e] s']; [apply IH|done].
Qed.

Lemma for_each_pair {S A B} (x : A) (l : list B)
    (body : A * B -> SE S unit) (s : S) :
  for_each l (fun y => body (x, y)) s
  = for_each (l ≫= (fun y => [(x, y)])) body s.
Proof.
  revert s. induction l as [|y l IH]; intros s; simpl; [done|].
  rewrite !bind_run. destruct (body (x, y) s) as [[[]|e] s']; [apply IH|done].
Qed.

Section ValidateActions.

Variable fs : string -> bool.
Variable decryptable : PyValue -> Res unit.

Lemma validate_actions_flat startup_args :
  validate_actions fs decryptable startup_args
  = for_each (all_actions startup_args)
      (fun ra => validate_action fs decryptable (fst ra) (snd ra))
      startup_args.
Proof.
  unfold validate_actions, all_actions. rewrite bind_run, get_run.
  rewrite <- for_each_bind. apply for_each_ext. intros ruleset s.
  rewrite <- for_each_bind. apply for_each_ext. intros rule s'.
  apply (for_each_pair rule (actions rule)
           (fun ra => validate_action fs decryptable (fst ra) (snd ra))).
Qed.

Lemma validate_action_run rule a startup_args :
  validate_action fs decryptable rule a startup_args
  = (if inventory_check_fails fs startup_args a then
       Raise (if truthy (inventory startup_args)
              then new_exc InventoryNotFound
                     ("Inventory " +:+ show_opt (inventory startup_args)
                      +:+ " not found")
              else new_exc InventoryNeededException
                     ("Rule " +:+ rule_name rule +:+ " has an action "
                      +:+ action a
                      +:+ " which needs inventory to be defined"))
     else if controller_check_fails startup_args a then
       Raise (new_exc ControllerNeededException
                ("Rule " +:+ rule_name rule +:+ " has an action " +:+ action a
                 +:+ " which needs controller url and token to be defined"))
     else if check_vault startup_args then decryptable (action_args a)
     else Ok tt,
     mark_controller a startup_args).
Proof.
  unfold validate_action, inventory_check_fails, controller_check_fails,
    mark_controller, needs_inventory, needs_controller.
  destruct startup_args as [rss vs evs inv pdf url tok ssl usr pwd ccc cv].
  cbn [inventory controller_url controller_token check_vault].
  destruct (py_in (action a) CONTROLLER_ACTIONS),
    (py_in (action a) INVENTORY_ACTIONS); run_steps;
    cbn [inventory controller_url controller_token check_vault
         set_check_controller_connection andb negb orb].
  all: destruct inv as [path|]; cbn [truthy negb andb orb];
    try (destruct (String.eqb path ""));
    cbn [negb andb orb os_path_exists]; run_steps; try reflexivity.
  all: try (destruct (fs path)); cbn [negb andb orb]; run_steps;
    try reflexivity.
  all: destruct (truthy url), (truthy tok); cbn [negb andb orb]; run_steps;
    try reflexivity.
  all: destruct cv; run_steps; try reflexivity.
  all: destruct (decryptable (action_args a)); reflexivity.
Qed.

Lemma same_config_mark a s startup_args :
  same_config s startup_args -> same_config (mark_controller a s) startup_args.
Proof. unfold mark_controller. by destruct (needs_controller a), s. Qed.

Lemma same_config_refl startup_args : same_config startup_args startup_args.
Proof. by repeat split. Qed.

Lemma inventory_check_config s startup_args a :
  same_config s startup_args ->
  inventory_check_fails fs s a = inventory_check_fails fs startup_args a.
Proof. intros (Hi & _). unfold inventory_check_fails. by rewrite Hi. Qed.

Lemma controller_check_config s startup_args a :
  same_config s startup_args ->
  controller_check_fails s a = controller_check_fails startup_args a.
Proof.
  intros (_ & Hu & Ht & _). unfold controller_check_fails. by rewrite Hu, Ht.
Qed.

Lemma vault_check_config s startup_args a :
  same_config s startup_args ->
  vault_check_fails decryptable s a
  = vault_check_fails decryptable startup_args a.
Proof. intros (_ & _ & _ & Hv). unfold vault_check_fails. by rewrite Hv. Qed.

Lemma vault_check_passes startup_args a :
  vault_check_fails decryptable startup_args a = false ->
  (if check_vault startup_args then decryptable (action_args a) else Ok tt)
  = Ok tt.
Proof.
  unfold vault_check_fails. destruct (check_vault startup_args); [|done].
  by destruct (decryptable (action_args a)) as [[]|].
Qed.

Lemma controller_not_inventory a :
  needs_controller a = true -> needs_inventory a = false.
Proof.
  unfold needs_controller, needs_inventory, py_in, CONTROLLER_ACTIONS,
    INVENTORY_ACTIONS. simpl.
  rewrite !orb_false_r.
  intros [H|H]%orb_true_iff; apply String.eqb_eq in H; by rewrite H.
Qed.

(** The loop stops with the inventory classification at the first action
    that needs inventory, as long as nothing before it fails another
    check. *)
Lemma inventory_failure_first startup_args pre rule a post : forall s,
  same_config s startup_args ->
  needs_inventory a = true ->
  inventory_check_fails fs startup_args a = true ->
  Forall (fun ra =>
            controller_check_fails startup_args (snd ra) = false
            /\ vault_check_fails decryptable startup_args (snd ra) = false)
         pre ->
  (forall b, needs_inventory b = true ->
             inventory_check_fails fs startup_args b = true) ->
  raises_class
    (for_each (pre ++ (rule, a) :: post)
       (fun ra => validate_action fs decryptable (fst ra) (snd ra)) s)
    (if truthy (inventory startup_args)
     then InventoryNotFound else InventoryNeededException).
Proof.
  intros s Hs Ha Hfail Hpre Hall. revert s Hs.
  induction Hpre as [|[r0 a0] pre [Hc Hv] Hpre IH]; intros s Hs; simpl.
  - rewrite bind_run, validate_action_run.
    rewrite (inventory_check_config s startup_args) by done.
    rewrite Hfail. destruct Hs as (Hi & _). rewrite Hi.
    eexists. split; [reflexivity|]. by destruct (truthy (inventory startup_args)).
  - rewrite bind_run, validate_action_run. simpl in Hc, Hv.
    rewrite (inventory_check_config s startup_args),
      (controller_check_config s startup_args) by done.
    destruct (inventory_check_fails fs startup_args a0) eqn:Hinv.
    + destruct Hs as (Hi & _). rewrite Hi. eexists. split; [reflexivity|].
      by destruct (truthy (inventory startup_args)).
    + rewrite Hc, vault_check_passes
        by (by rewrite (vault_check_config s startup_args)).
      apply IH. by apply same_config_mark.
Qed.

(** The loop stops with the controller classification at the first action
    that needs a controller, as long as nothing before it fails another
    check. *)
Lemma controller_failure_first startup_args pre rule a post : forall s,
  same_config s startup_args ->
  truthy (controller_url startup_args) = false ->
  truthy (controller_token startup_args) = false ->
  needs_controller a = true ->
  Forall (fun ra =>
            inventory_check_fails fs startup_args (snd ra) = false
            /\ vault_check_fails decryptable startup_args (snd ra) = false)
         pre ->
  raises_class
    (for_each (pre ++ (rule, a) :: post)
       (fun ra => validate_action fs decryptable (fst ra) (snd ra)) s)
    ControllerNeededException.
Proof.
  intros s Hs Hu Ht Ha Hpre. revert s Hs.
  induction Hpre as [|[r0 a0] pre [Hi Hv] Hpre IH]; intros s Hs; simpl.
  - rewrite bind_run, validate_action_run.
    rewrite (inventory_check_config s startup_args),
      (controller_check_config s startup_args) by done.
    unfold inventory_check_fails, controller_check_fails.
    rewrite (controller_not_inventory a Ha), Ha, Hu, Ht. simpl.
    eexists. by split.
  - rewrite bind_run, validate_action_run. simpl in Hi, Hv.
    rewrite (inventory_check_config s startup_args),
      (controller_check_config s startup_args) by done.
    rewrite Hi.
    destruct (controller_check_fails startup_args a0); simpl.
    + eexists. by split.
    + rewrite vault_check_passes
        by (by rewrite (vault_check_config s startup_args)).
      apply IH. by apply same_config_mark.
Qed.

(** Conversely, a controller classification comes from a controller
    action that nothing stopped the loop from reaching. *)
Lemma controller_failure_only startup_args :
  (forall v e, decryptable v = Raise e ->
               exc_class e <> ControllerNeededException) ->
  forall l s,
  same_config s startup_args ->
  raises_class
    (for_each l (fun ra => validate_action fs decryptable (fst ra) (snd ra)) s)
    ControllerNeededException ->
  truthy (controller_url startup_args) = false
  /\ truthy (controller_token startup_args) = false
  /\ exists pre rule a post,
       l = pre ++ (rule, a) :: post
       /\ needs_controller a = true
       /\ Forall (fun ra =>
                    inventory_check_fails fs startup_args (snd ra) = false
                    /\ vault_check_fails decryptable startup_args (snd ra)
                       = false)
                 pre.
Proof.
  intros Hdec l. induction l as [|[r0 a0] l IH]; intros s Hs (e & He & Hc).
  - cbv in He. discriminate.
  - cbn [for_each] in He. rewrite bind_run, validate_action_run in He.
    cbn [fst snd] in He.
    rewrite (inventory_check_config s startup_args),
      (controller_check_config s startup_args) in He by done.
    pose proof Hs as (Hi & Hu & Ht & Hv).
    destruct (inventory_check_fails fs startup_args a0) eqn:Hinv;
      rewrite ?Hinv in He.
    { simpl in He. injection He as <-. rewrite Hi in Hc.
      by destruct (truthy (inventory startup_args)). }
    destruct (controller_check_fails startup_args a0) eqn:Hctl;
      rewrite ?Hctl in He.
    { unfold controller_check_fails in Hctl.
      apply andb_true_iff in Hctl as [[Ha Hu']%andb_true_iff Ht'].
      apply negb_true_iff in Hu', Ht'.
      split; [done|]. split; [done|].
      exists [], r0, a0, l. by repeat split. }
    rewrite Hv in He.
    destruct (check_vault startup_args) eqn:Hcv.
    + destruct (decryptable (action_args a0)) as [[]|e0] eqn:Hd;
        rewrite ?Hd in He.
      * destruct (IH (mark_controller a0 s)) as (Hu' & Ht' & pre & r & a & post & -> & Ha & Hpre).
        { by apply same_config_mark. }
        { by exists e. }
        split; [done|]. split; [done|].
        exists ((r0, a0) :: pre), r, a, post. repeat split; [done|].
        constructor; [|done]. simpl. split; [done|].
        unfold vault_check_fails. by rewrite Hcv, Hd.
      * simpl in He. injection He as <-. by apply Hdec in Hd.
    + destruct (IH (mark_controller a0 s)) as (Hu' & Ht' & pre & r & a & post & -> & Ha & Hpre).
      { by apply same_config_mark. }
      { by exists e. }
      split; [done|]. split; [done|].
      exists ((r0, a0) :: pre), r, a, post. repeat split; [done|].
      constructor; [|done]. simpl. split; [done|].
      unfold vault_check_fails. by rewrite Hcv.
Qed.

(** Whatever happens, the loop changes nothing but the flag. *)
Lemma validate_loop_keeps (l : list (Rule * Action)) : forall s,
  snd (for_each l (fun ra => validate_action fs decryptable (fst ra) (snd ra)) s)
  = s
  \/ snd (for_each l
            (fun ra => validate_action fs decryptable (fst ra) (snd ra)) s)
     = set_check_controller_connection true s.
Proof.
  induction l as [|[r a] l IH]; intros s; [by left|].
  cbn [for_each]. rewrite bind_run, validate_action_run. cbn [fst snd].
  assert (mark_controller a s = s
          \/ mark_controller a s = set_check_controller_connection true s)
    as Hmark by (unfold mark_controller; destruct (needs_controller a); auto).
  destruct (if inventory_check_fails fs s a then _ else _) as [[]|e];
    [|exact Hmark].
  destruct (IH (mark_controller a s)) as [->| ->]; [exact Hmark|].
  right. by destruct Hmark as [->| ->].
Qed.

Lemma validate_actions_keeps startup_args :
  snd (validate_actions fs decryptable startup_args) = startup_args
  \/ snd (validate_actions fs decryptable startup_args)
     = set_check_controller_connection true startup_args.
Proof. rewrite validate_actions_flat. apply validate_loop_keeps. Qed.

End ValidateActions.

(** C7, as the code has it.  If some action needs inventory and no action
    visited before it fails the controller check or the decryptability
    check, then [validate_actions] raises InventoryNeededException when no
    inventory is configured, and raises InventoryNotFound when an
    inventory is configured but its path does not exist. *)
Theorem validate_actions_inventory
    (fs : string -> bool) (decryptable : PyValue -> Res unit)
    (startup_args : StartupArgs)
    (pre : list (Rule * Action)) (rule : Rule) (a : Action)
    (post : list (Rule * Action)) :
  all_actions startup_args = pre ++ (rule, a) :: post ->
  needs_inventory a = true ->
  Forall (fun ra =>
            controller_check_fails startup_args (snd ra) = false
            /\ vault_check_fails decryptable startup_args (snd ra) = false)
         pre ->
  (truthy (inventory startup_args) = false ->
   raises_class (validate_actions fs decryptable startup_args)
     InventoryNeededException)
  /\ (forall path,
        inventory startup_args = Some path ->
        truthy (Some path) = true ->
        fs path = false ->
        raises_class (validate_actions fs decryptable startup_args)
          InventoryNotFound).
Proof.
  intros Hall Ha Hpre. rewrite validate_actions_flat, Hall. split.
  - intros Hinv.
    pose proof (inventory_failure_first fs decryptable startup_args pre rule a
                  post startup_args (same_config_refl _) Ha) as H.
    rewrite Hinv in H. apply H; [|done|].
    + unfold inventory_check_fails. rewrite Ha.
      destruct (inventory startup_args); [|done]. cbn [andb]. by rewrite Hinv.
    + intros b Hb. unfold inventory_check_fails. rewrite Hb.
      destruct (inventory startup_args); [|done]. cbn [andb]. by rewrite Hinv.
  - intros path Hpath Htruthy Hmissing.
    pose proof (inventory_failure_first fs decryptable startup_args pre rule a
                  post startup_args (same_config_refl _) Ha) as H.
    rewrite Hpath, Htruthy in H. apply H; [|done|].
    + unfold inventory_check_fails. rewrite Ha, Hpath, Hmissing.
      simpl. by rewrite orb_true_r.
    + intros b Hb. unfold inventory_check_fails. rewrite Hb, Hpath, Hmissing.
      simpl. by rewrite orb_true_r.
Qed.

(** A rule with a playbook action and no inventory. *)
Lemma validate_actions_inventory_witness :
  raises_class
    (validate_actions no_files all_decryptable
       (bare_args (one_rule [debug_action; playbook_action])))
    InventoryNeededException.
Proof.
  apply (validate_actions_inventory no_files all_decryptable
           (bare_args (one_rule [debug_action; playbook_action]))
           [(mkRule "r1" [debug_action; playbook_action], debug_action)]
           (mkRule "r1" [debug_action; playbook_action]) playbook_action []).
  - reflexivity.
  - reflexivity.
  - repeat constructor.
  - reflexivity.
Defined.

(** C7 as stated fails: with a job-template action ahead of the playbook
    action and nothing configured, an inventory action is present and no
    inventory is configured, yet the exception is ControllerNeededException. *)
Lemma validate_actions_inventory_counterexample :
  let startup_args :=
    bare_args (one_rule [job_template_action; playbook_action]) in
  (exists ra, ra ∈ all_actions startup_args /\ needs_inventory (snd ra) = true)
  /\ truthy (inventory startup_args) = false
  /\ raises_class (validate_actions no_files all_decryptable startup_args)
       ControllerNeededException
  /\ ~ raises_class (validate_actions no_files all_decryptable startup_args)
         InventoryNeededException.
Proof.
  simpl. split; [|split; [reflexivity|split]].
  - exists (mkRule "r1" [job_template_action; playbook_action], playbook_action).
    split; [|reflexivity]. vm_compute. apply list_elem_of_further, list_elem_of_here.
  - eexists. split; [vm_compute; reflexivity|reflexivity].
  - intros (e & He & Hc). vm_compute in He. injection He as <-. discriminate.
Qed.

(** C8, as the code has it.  Provided the decryptability check never uses
    the controller-missing class itself, [validate_actions] raises
    ControllerNeededException exactly when neither a controller URL nor a
    token is configured and some action needs a controller while no action
    visited before it fails the inventory check or the decryptability
    check. *)
Theorem validate_actions_controller
    (fs : string -> bool) (decryptable : PyValue -> Res unit)
    (startup_args : StartupArgs) :
  (forall v e, decryptable v = Raise e ->
               exc_class e <> ControllerNeededException) ->
  raises_class (validate_actions fs decryptable startup_args)
    ControllerNeededException
  <-> (truthy (controller_url startup_args) = false
       /\ truthy (controller_token startup_args) = false
       /\ exists pre rule a post,
            all_actions startup_args = pre ++ (rule, a) :: post
            /\ needs_controller a = true
            /\ Forall (fun ra =>
                         inventory_check_fails fs startup_args (snd ra) = false
                         /\ vault_check_fails decryptable startup_args (snd ra)
                            = false)
                      pre).
Proof.
  intros Hdec. rewrite validate_actions_flat. split.
  - intros H.
    apply (controller_failure_only fs decryptable startup_args Hdec _
             startup_args (same_config_refl _) H).
  - intros (Hu & Ht & pre & rule & a & post & -> & Ha & Hpre).
    apply (controller_failure_first fs decryptable startup_args pre rule a post
             startup_args (same_config_refl _) Hu Ht Ha Hpre).
Qed.

(** A job-template action after a debug action, with no controller
    settings: the controller classification. *)
Lemma validate_actions_controller_witness :
  raises_class
    (validate_actions no_files all_decryptable
       (bare_args (one_rule [debug_action; job_template_action])))
    ControllerNeededException.
Proof.
  apply (validate_actions_controller no_files all_decryptable
           (bare_args (one_rule [debug_action; job_template_action]))).
  - intros v e. unfold all_decryptable. discriminate.
  - split; [reflexivity|]. split; [reflexivity|].
    exists [(mkRule "r1" [debug_action; job_template_action], debug_action)],
      (mkRule "r1" [debug_action; job_template_action]), job_template_action, [].
    split; [reflexivity|]. split; [reflexivity|]. repeat constructor.
Defined.

(** C8 as stated fails: with a playbook action ahead of the job-template
    action and nothing configured, a controller action is present with
    neither URL nor token, yet the exception is InventoryNeededException. *)
Lemma validate_actions_controller_counterexample :
  let startup_args :=
    bare_args (one_rule [playbook_action; job_template_action]) in
  (exists ra, ra ∈ all_actions startup_args /\ needs_controller (snd ra) = true)
  /\ truthy (controller_url startup_args) = false
  /\ truthy (controller_token startup_args) = false
  /\ raises_class (validate_actions no_files all_decryptable startup_args)
       InventoryNeededException
  /\ ~ raises_class (validate_actions no_files all_decryptable startup_args)
         ControllerNeededException.
Proof.
  simpl. split; [|split; [reflexivity|split; [reflexivity|split]]].
  - exists (mkRule "r1" [playbook_action; job_template_action],
            job_template_action).
    split; [|reflexivity]. vm_compute. apply list_elem_of_further, list_elem_of_here.
  - eexists. split; [vm_compute; reflexivity|reflexivity].
  - intros (e & He & Hc). vm_compute in He. injection He as <-. discriminate.
Qed.

(** ** Loops of the shutdown sequence *)

Section Loops.

Variable X : Collaborators.

Lemma cancel_all_run tasks : forall w,
  for_each tasks (fun task => emit (EvCancel task)) w
  = (Ok tt, mkWorld (w_trace w ++ map EvCancel tasks) (w_environ w) (w_log w)
              (w_runner w) (w_queues w) (w_next_id w)).
Proof.
  induction tasks as [|t tasks IH]; intros w; simpl.
  - rewrite ret_run, app_nil_r. by destruct w.
  - rewrite bind_run, emit_run, IH. simpl. by rewrite <- app_assoc.
Qed.

Lemma gather_loop_run tasks : forall results w,
  for_fold tasks results (fun t results =>
      h <- history ;;
      let r := task_outcome X h t in
      emit (EvAwait t r) ;;;
      ret (results ++ [r])) w
  = (Ok (results ++ gather_results X (w_trace w) tasks),
     mkWorld (w_trace w
              ++ zip_with EvAwait tasks (gather_results X (w_trace w) tasks))
             (w_environ w) (w_log w) (w_runner w) (w_queues w) (w_next_id w)).
Proof.
  induction tasks as [|t tasks IH]; intros results w; simpl.
  - rewrite ret_run, !app_nil_r. by destruct w.
  - run_steps. rewrite IH. simpl. by rewrite <- !app_assoc.
Qed.

Lemma gather_run tasks w :
  gather_return_exceptions X tasks w
  = (Ok (gather_results X (w_trace w) tasks),
     mkWorld (w_trace w
              ++ zip_with EvAwait tasks (gather_results X (w_trace w) tasks))
             (w_environ w) (w_log w) (w_runner w) (w_queues w) (w_next_id w)).
Proof. unfold gather_return_exceptions. by rewrite gather_loop_run. Qed.

Lemma gather_results_length tasks : forall h,
  length (gather_results X h tasks) = length tasks.
Proof. induction tasks as [|t tasks IH]; intros h; simpl; [done|]. by rewrite IH. Qed.

Lemma log_frames_run (frames : list Frame) : forall w,
  for_each frames (fun frame =>
      log ERROR (frame_filename frame +:+ ":" +:+ str_nat (frame_lineno frame)
                 +:+ " " +:+ frame_name frame)) w
  = (Ok tt,
     mkWorld (w_trace w) (w_environ w)
       (w_log w
        ++ map (fun frame =>
                  (ERROR, frame_filename frame +:+ ":"
                          +:+ str_nat (frame_lineno frame)
                          +:+ " " +:+ frame_name frame)) frames)
       (w_runner w) (w_queues w) (w_next_id w)).
Proof.
  induction frames as [|f frames IH]; intros w; simpl.
  - rewrite ret_run, app_nil_r. by destruct w.
  - rewrite bind_run, log_run, IH. simpl. by rewrite <- app_assoc.
Qed.

Lemma log_exception_run c v tb w :
  log_exception_without_data c v tb w
  = (Ok tt, mkWorld (w_trace w) (w_environ w)
              (w_log w ++ exception_records c v tb)
              (w_runner w) (w_queues w) (w_next_id w)).
Proof.
  unfold log_exception_without_data, exception_records.
  rewrite bind_run, log_run. destruct tb as [frames|].
  - rewrite log_frames_run. simpl. by rewrite <- app_assoc.
  - by rewrite ret_run.
Qed.

Lemma scan_results_run results : forall error_found w,
  for_fold results error_found (fun result error_found =>
      match result with
      | Failed e =>
          if is_source_failure result then
            log_exception_without_data (exc_class e) (exc_msg e)
              (exc_traceback e) ;;;
            ret true
          else ret error_found
      | Returned _ => ret error_found
      end) w
  = (Ok (error_found || existsb is_source_failure results),
     mkWorld (w_trace w) (w_environ w) (w_log w ++ failure_records results)
       (w_runner w) (w_queues w) (w_next_id w)).
Proof.
  unfold failure_records.
  induction results as [|r results IH]; intros error_found w; simpl.
  - rewrite ret_run, orb_false_r, app_nil_r. by destruct w.
  - rewrite bind_run. destruct r as [v|e].
    + rewrite ret_run, IH. simpl. by destruct w.
    + destruct (is_source_failure (Failed e)) eqn:Hf.
      * rewrite bind_run, log_exception_run, ret_run, IH. simpl.
        by rewrite orb_true_r, <- app_assoc.
      * rewrite ret_run, IH. simpl. by destruct w.
Qed.

End Loops.

(** ** One pass through [run], phase by phase *)

Section Phases.

Variable X : Collaborators.

Ltac world_simpl :=
  cbn [fst snd w_trace w_environ w_log w_runner w_queues w_next_id orb].

Ltac norm_app :=
  repeat (progress (repeat rewrite <- app_assoc;
                    cbn [app map option_list option_rect])).

Lemma run_shutdown_run event_log feedback_task tasks should_reload w :
  fst (run_shutdown X event_log feedback_task tasks should_reload w)
  = shutdown_outcome X (w_trace w) event_log feedback_task tasks should_reload
  /\ w_trace (snd (run_shutdown X event_log feedback_task tasks should_reload w))
     = w_trace w
       ++ shutdown_events X (w_trace w) event_log feedback_task tasks
  /\ w_environ
       (snd (run_shutdown X event_log feedback_task tasks should_reload w))
     = w_environ w.
Proof.
  unfold run_shutdown, shutdown_outcome, shutdown_events, shutdown_closed,
    shutdown_results, shutdown_prefix, shutdown_wait, event_log_put,
    wait_for_task.
  set (h := w_trace w).
  assert (w_trace w = h) as Hh by done. clearbody h.
  destruct w as [tr env lg rn qs nx]. cbn [w_trace] in Hh. subst tr.
  destruct feedback_task as [t|].
  - rewrite bind_run, emit_run; world_simpl.
    rewrite bind_run, bind_run, history_run; world_simpl.
    rewrite emit_run; world_simpl.
    rewrite bind_run, log_run; world_simpl.
    rewrite bind_run, cancel_all_run; world_simpl.
    rewrite bind_run, gather_run; world_simpl.
    rewrite bind_run, scan_results_run; world_simpl.
    rewrite bind_run, log_run; world_simpl.
    rewrite bind_run, history_run; world_simpl.
    rewrite bind_run, emit_run; world_simpl.
    rewrite bind_run, lift_res_run; world_simpl.
    norm_app.
    destruct (close_session X _) as [[]|e]; [|done].
    destruct (existsb _ _); [done|].
    by destruct should_reload.
  - rewrite bind_run, emit_run; world_simpl.
    rewrite bind_run, ret_run; world_simpl.
    rewrite bind_run, log_run; world_simpl.
    rewrite bind_run, cancel_all_run; world_simpl.
    rewrite bind_run, gather_run; world_simpl.
    rewrite bind_run, scan_results_run; world_simpl.
    rewrite bind_run, log_run; world_simpl.
    rewrite bind_run, history_run; world_simpl.
    rewrite bind_run, emit_run; world_simpl.
    rewrite bind_run, lift_res_run; world_simpl.
    norm_app.
    destruct (close_session X _) as [[]|e]; [|done].
    destruct (existsb _ _); [done|].
    by destruct should_reload.
Qed.

Lemma run_pipeline_run parsed_args startup_args file_monitor w :
  fst (run_pipeline X parsed_args startup_args file_monitor w)
  = pipeline_outcome X parsed_args startup_args file_monitor w
  /\ w_trace (snd (run_pipeline X parsed_args startup_args file_monitor w))
     = w_trace w ++ pipeline_events X parsed_args startup_args file_monitor w
  /\ w_environ (snd (run_pipeline X parsed_args startup_args file_monitor w))
     = w_environ w.
Proof.
  unfold run_pipeline, pipeline_outcome, pipeline_events, pipeline_history,
    pipeline_answer, pipeline_call, pipeline_start, pipeline_tasks,
    pipeline_feedback, pipeline_plan, pipeline_first_id, pipeline_event_log.
  destruct w as [tr env lg rn qs nx].
  destruct (truthy (Args.websocket_url parsed_args)).
  - rewrite bind_run, bind_run, new_queue_run, ret_run, bind_run, log_run,
      bind_run.
    unfold spawn_sources. rewrite spawn_loop.
    cbn [fst snd w_trace w_environ w_log w_runner w_queues w_next_id].
    set (plan := spawn_plan _ _ _ _ _).
    rewrite bind_run, log_run, bind_run, bind_run, create_task_run, ret_run,
      bind_run, history_run, bind_run, emit_run, bind_run, lift_res_run.
    cbn [fst snd w_trace w_environ w_log w_runner w_queues w_next_id].
    set (fbt := mkTask _ _). set (call := mkDriverCall _ _ _ _ _ _ _).
    norm_app.
    destruct (run_rulesets X _ call) as [should_reload|e];
      [|split; [done|split; [by norm_app|done]]].
    match goal with
    | |- context [run_shutdown X ?l ?f ?ts ?b ?w2] =>
        pose proof (run_shutdown_run l f ts b w2) as (Hout & Htr & Henv);
        destruct (run_shutdown X l f ts b w2) as [r w3]
    end.
    cbn [fst snd w_trace w_environ] in *.
    split; [by rewrite Hout; norm_app|].
    split; [by rewrite Htr; norm_app|done].
  - rewrite bind_run, ret_run, bind_run, log_run, bind_run.
    unfold spawn_sources. rewrite spawn_loop.
    cbn [fst snd w_trace w_environ w_log w_runner w_queues w_next_id].
    set (plan := spawn_plan _ _ _ _ _).
    rewrite bind_run, log_run, bind_run, ret_run,
      bind_run, history_run, bind_run, emit_run, bind_run, lift_res_run.
    cbn [fst snd w_trace w_environ w_log w_runner w_queues w_next_id].
    set (call := mkDriverCall _ _ _ _ _ _ _).
    norm_app. rewrite ?app_nil_r.
    destruct (run_rulesets X _ call) as [should_reload|e];
      [|split; [done|split; [by norm_app|done]]].
    match goal with
    | |- context [run_shutdown X ?l ?f ?ts ?b ?w2] =>
        pose proof (run_shutdown_run l f ts b w2) as (Hout & Htr & Henv);
        destruct (run_shutdown X l f ts b w2) as [r w3]
    end.
    cbn [fst snd w_trace w_environ] in *.
    split; [by rewrite Hout; norm_app; rewrite ?app_nil_r|].
    split; [by rewrite Htr; norm_app; rewrite ?app_nil_r|done].
Qed.

End Phases.

(** ** The startup part of [run] *)

Lemma same_but_log_refl w : same_but_log w w.
Proof. by repeat split. Qed.

Lemma same_but_log_trans w1 w2 w3 :
  same_but_log w1 w2 -> same_but_log w2 w3 -> same_but_log w1 w3.
Proof.
  intros (?&?&?&?&?) (?&?&?&?&?). unfold same_but_log. by repeat split; etrans.
Qed.

Lemma grows_refl P w : grows P w w.
Proof. exists []. by rewrite app_nil_r. Qed.

Lemma grows_trans P w1 w2 w3 : grows P w1 w2 -> grows P w2 w3 -> grows P w1 w3.
Proof.
  intros (d1 & H1 & F1) (d2 & H2 & F2). exists (d1 ++ d2).
  split; [by rewrite H2, H1, app_assoc|]. by rewrite forallb_app, F1, F2.
Qed.

Lemma same_but_log_grows P w w' : same_but_log w w' -> grows P w w'.
Proof. intros (Ht & _). exists []. by rewrite app_nil_r. Qed.

Ltac case_steps :=
  repeat (run_steps;
          try match goal with
              | |- context [match ?x with Ok _ => _ | Raise _ => _ end] =>
                  destruct x eqn:?
              | |- context [match ?x with Some _ => _ | None => _ end] =>
                  destruct x eqn:?
              | |- context [if ?b then _ else _] => destruct b eqn:?
              | |- context [when ?b _] => destruct b eqn:?
              end).

Section Startup.

Variable X : Collaborators.

Lemma env_vars_loop_run names : forall variables w,
  snd (for_fold names variables (fun env_var variables =>
         w <- get ;;
         match w_environ w !! env_var with
         | None =>
             raise (new_exc KeyError
               (py_repr X ("Could not find environment variable "
                           +:+ py_repr X env_var)))
         | Some v => ret (dict_set env_var (VStr v) variables)
         end) w) = w.
Proof.
  induction names as [|n names IH]; intros variables w; simpl; [done|].
  run_steps. destruct (w_environ w !! n); run_steps; [apply IH|done].
Qed.

Lemma load_vars_world parsed_args w : snd (load_vars X parsed_args w) = w.
Proof.
  unfold load_vars.
  destruct (Args.vars parsed_args) as [path|],
    (Args.env_vars parsed_args) as [names|];
    case_steps; try done; try apply env_vars_loop_run.
Qed.

Lemma load_rulebook_world parsed_args startup_args w :
  same_but_log w (snd (load_rulebook X parsed_args startup_args w)).
Proof.
  unfold load_rulebook.
  destruct (Args.rulebook parsed_args) as [path|]; case_steps;
    by repeat split.
Qed.

Lemma run_startup_args_run parsed_args w :
  grows startup_event w (snd (run_startup_args X parsed_args w))
  /\ w_environ (snd (run_startup_args X parsed_args w)) = w_environ w
  /\ forall startup_args file_monitor,
       fst (run_startup_args X parsed_args w) = Ok (startup_args, file_monitor) ->
       file_monitor
       = if monitoring_armed X parsed_args w
         then Args.rulebook parsed_args else None.
Proof.
  unfold run_startup_args, monitoring_armed, rulebook_on_disk.
  destruct (worker_mode parsed_args); cbn [negb andb].
  - run_steps.
    destruct (request_workload X _ _) as [[sa|]|e]; run_steps;
      (split; [|split; [done|]]);
      try (eexists [_; _]; split; [by rewrite <- app_assoc|done]);
      intros sa' fm [= _ <-] || (intros ? ? [=]); done.
  - rewrite bind_run.
    pose proof (load_vars_world parsed_args w) as Hv.
    destruct (load_vars X parsed_args w) as [[vars|e] w1]; simpl in Hv;
      subst w1; [|split; [apply grows_refl|by split]].
    rewrite bind_run.
    pose proof (load_rulebook_world parsed_args
                  (Some (set_variables vars (StartupArgs_new X))) w) as Hr.
    destruct (load_rulebook X parsed_args _ w) as [[loaded|e] w2];
      simpl in Hr; [|split; [by apply same_but_log_grows|split; [apply Hr|done]]].
    destruct Hr as (Ht & He & Hrest).
    destruct (Args.hot_reload parsed_args); cbn [andb].
    + destruct (Args.rulebook parsed_args) as [path|]; cbn [os_path_exists].
      * run_steps. rewrite Ht.
        destruct (path_exists X (w_trace w) path); run_steps;
          (split; [exists []; by rewrite app_nil_r|split; [done|]]);
          by intros sa' fm [= _ <-].
      * run_steps. split; [exists []; by rewrite app_nil_r|split; [done|]].
        intros ? ? [=].
    + run_steps. split; [exists []; by rewrite app_nil_r|split; [done|]].
      by intros sa' fm [= _ <-].
Qed.

Lemma validate_controller_params_grows startup_args w :
  grows startup_event w (snd (validate_controller_params X startup_args w))
  /\ w_environ (snd (validate_controller_params X startup_args w))
     = w_environ w.
Proof.
  unfold validate_controller_params.
  destruct (controller_url startup_args) as [url|]; [|split; [apply grows_refl|done]].
  case_steps; (split; [|done]);
    try apply grows_refl;
    try (eexists [_]; split; [reflexivity|reflexivity]).
Qed.

Lemma setenv_loop_run (env : list (string * PyValue)) : forall w,
  match for_each env (fun kv => setenv X (fst kv) (py_str X (snd kv))) w with
  | (Ok _, w') =>
      w' = mkWorld (w_trace w ++ setenv_events X env)
             (exported X env (w_environ w)) (w_log w) (w_runner w)
             (w_queues w) (w_next_id w)
  | (Raise _, w') => grows startup_event w w'
  end.
Proof.
  unfold setenv_events, exported.
  induction env as [|kv env IH]; intros w; cbn [for_each].
  - rewrite ret_run, app_nil_r. by destruct w.
  - rewrite bind_run. unfold setenv at 1. run_steps.
    destruct (putenv X (w_trace w) (fst kv) (py_str X (snd kv))) as [[]|e];
      run_steps.
    + match goal with
      | |- context [for_each env ?f ?w1] =>
          specialize (IH w1); destruct (for_each env f w1) as [[[]|e] w2]
      end; cbn [w_trace w_environ w_log w_runner w_queues w_next_id] in IH.
      * subst w2. simpl. by rewrite <- app_assoc.
      * eapply grows_trans; [|exact IH].
        eexists [_]. split; reflexivity.
    + eexists [_]. split; reflexivity.
Qed.

Lemma run_validate_and_export_run startup_args w :
  match fst (run_validate_and_export X startup_args w) with
  | Raise _ =>
      grows startup_event w (snd (run_validate_and_export X startup_args w))
  | Ok startup_args' =>
      fst (validate_actions (path_exists X (w_trace w)) (decryptable X)
             startup_args) = Ok tt
      /\ decryptable X (VDict (variables startup_args)) = Ok tt
      /\ w_trace (snd (run_validate_and_export X startup_args w))
         = w_trace w ++ setenv_events X (env_vars startup_args')
      /\ w_environ (snd (run_validate_and_export X startup_args w))
         = exported X (env_vars startup_args') (w_environ w)
      /\ decrypted_context X (variables startup_args)
         = Ok (variables startup_args')
      /\ substitute_variables X (env_vars startup_args)
           (variables startup_args')
         = Ok (env_vars startup_args')
      /\ startup_args'
         = set_env_vars (env_vars startup_args')
             (set_variables (variables startup_args')
                (snd (validate_actions (path_exists X (w_trace w))
                        (decryptable X) startup_args)))
  end.
Proof.
  unfold run_validate_and_export, on_startup_args, validate_variables.
  rewrite bind_run, history_run, bind_run.
  rewrite (bind_run (validate_actions _ _)).
  pose proof (validate_actions_keeps (path_exists X (w_trace w))
                (decryptable X) startup_args) as Hkeep.
  destruct (validate_actions _ _ startup_args) as [[[]|e] sa1] eqn:Hva;
    [|apply grows_refl].
  cbn [snd] in Hkeep.
  assert (variables sa1 = variables startup_args
          /\ env_vars sa1 = env_vars startup_args) as [Hvars Henvs]
    by (destruct Hkeep as [->| ->]; by destruct startup_args).
  rewrite bind_run, get_run, lift_res_run. cbn [fst snd].
  rewrite Hvars.
  destruct (decryptable X (VDict (variables startup_args))) as [[]|e];
    [|apply grows_refl].
  run_steps.
  destruct (decrypted_context X _) as [decrypted|e] eqn:Hdecrypted; run_steps;
    [|apply grows_refl].
  replace (env_vars (set_variables decrypted sa1))
    with (env_vars startup_args) by (by destruct sa1).
  replace (variables (set_variables decrypted sa1))
    with decrypted by (by destruct sa1).
  destruct (substitute_variables X _ _) as [env|e] eqn:Hsubst; run_steps;
    [|apply grows_refl].
  replace (env_vars (set_env_vars env (set_variables decrypted sa1)))
    with env by (by destruct sa1).
  pose proof (setenv_loop_run env w) as Hloop.
  destruct (for_each env _ w) as [[[]|e] w1]; [|exact Hloop].
  subst w1. run_steps.
  replace (variables (set_env_vars env (set_variables decrypted sa1)))
    with decrypted by (by destruct sa1).
  replace (env_vars (set_env_vars env (set_variables decrypted sa1)))
    with env by (by destruct sa1).
  rewrite Hvars in Hdecrypted. rewrite ?Hdecrypted, ?Hsubst.
  by repeat split.
Qed.

End Startup.

(** ** The structure of the trace of one pass *)

Lemma forallb_elem {A} (P : A -> bool) (l : list A) (x : A) :
  forallb P l = true -> x ∈ l -> P x = true.
Proof.
  intros H Hin. induction Hin as [x l|x y l Hin IH]; simpl in H;
    apply andb_true_iff in H as [H1 H2]; [done|by apply IH].
Qed.

Lemma forallb_weaken {A} (P Q : A -> bool) (l : list A) :
  (forall x, P x = true -> Q x = true) ->
  forallb P l = true -> forallb Q l = true.
Proof.
  intros HPQ. induction l as [|x l IH]; simpl; [done|].
  intros [H1 H2]%andb_true_iff. by rewrite (HPQ x H1), IH.
Qed.

(** Events of the spawning part and of the shutdown part. *)
Lemma created_tasks_app (l1 l2 : list Event) :
  created_tasks (l1 ++ l2) = created_tasks l1 ++ created_tasks l2.
Proof. unfold created_tasks. apply omap_app. Qed.

Lemma created_tasks_none (l : list Event) :
  forallb (fun e => negb (is_create_task e)) l = true -> created_tasks l = [].
Proof.
  induction l as [|e l IH]; simpl; [done|].
  intros [H1 H2]%andb_true_iff. unfold created_tasks in *. simpl.
  destruct e; try discriminate; by apply IH.
Qed.

Lemma created_tasks_map (tasks : list Task) :
  created_tasks (map EvCreateTask tasks) = tasks.
Proof.
  induction tasks as [|t tasks IH]; [done|].
  unfold created_tasks in *. simpl. by f_equal.
Qed.

Lemma created_tasks_plan (plan : list (RuleSetQueue * list Task)) :
  created_tasks (concat (map group_events plan)) = concat (map snd plan).
Proof.
  induction plan as [|g plan IH]; simpl; [done|].
  rewrite created_tasks_app, IH. unfold created_tasks at 1. simpl.
  fold (created_tasks (map EvCreateTask (snd g))).
  by rewrite created_tasks_map.
Qed.

Lemma plan_events_kind (plan : list (RuleSetQueue * list Task)) :
  forallb (fun e => negb (startup_event e) && negb (is_driver_call e))
    (concat (map group_events plan)) = true.
Proof.
  induction plan as [|g plan IH]; simpl; [done|].
  rewrite forallb_app, IH, andb_true_r.
  by induction (snd g) as [|t l IHl]; simpl.
Qed.

Section Structure.

Variable X : Collaborators.

Lemma shutdown_events_kind h event_log feedback tasks :
  forallb (fun e => negb (startup_event e) && negb (is_driver_call e)
                    && negb (is_create_task e))
    (shutdown_events X h event_log feedback tasks) = true.
Proof.
  unfold shutdown_events, shutdown_prefix, shutdown_wait.
  rewrite !forallb_app. simpl.
  repeat (apply andb_true_iff; split); try done.
  - by destruct feedback.
  - by induction tasks as [|t l IH]; simpl.
  - generalize (shutdown_results X h event_log feedback tasks).
    induction tasks as [|t l IH]; intros [|r rs]; simpl; try done; apply IH.
Qed.

Lemma pipeline_start_kind parsed_args startup_args w :
  forallb (fun e => negb (startup_event e) && negb (is_driver_call e))
    (pipeline_start parsed_args startup_args w) = true.
Proof.
  unfold pipeline_start. rewrite !forallb_app, plan_events_kind.
  destruct (pipeline_feedback parsed_args startup_args w);
    by destruct (truthy (Args.websocket_url parsed_args)).
Qed.

Lemma pipeline_start_tasks parsed_args startup_args w :
  created_tasks (pipeline_start parsed_args startup_args w)
  = pipeline_tasks parsed_args startup_args w.
Proof.
  unfold pipeline_start, pipeline_tasks.
  rewrite !created_tasks_app, created_tasks_plan, created_tasks_map.
  by destruct (truthy (Args.websocket_url parsed_args)).
Qed.

Lemma pipeline_tasks_nodup parsed_args startup_args w :
  NoDup (map task_id (pipeline_tasks parsed_args startup_args w)).
Proof.
  unfold pipeline_tasks, pipeline_feedback, pipeline_plan.
  rewrite map_app. apply NoDup_app. split; [apply spawn_plan_tasks_nodup|].
  split; [|destruct (truthy _); simpl; [apply NoDup_singleton|constructor]].
  intros i Hi Hin. destruct (truthy _); simpl in Hin; [|by apply elem_of_nil in Hin].
  apply list_elem_of_singleton in Hin. subst i.
  apply spawn_plan_task_lt in Hi. lia.
Qed.

End Structure.

Lemma plan_events_spawn (plan : list (RuleSetQueue * list Task)) :
  forallb is_spawn_event (concat (map group_events plan)) = true.
Proof.
  induction plan as [|g plan IH]; simpl; [done|].
  rewrite forallb_app, IH, andb_true_r.
  by induction (snd g) as [|t l IHl]; simpl.
Qed.

Lemma pipeline_start_spawn parsed_args startup_args w :
  forallb is_spawn_event (pipeline_start parsed_args startup_args w) = true.
Proof.
  unfold pipeline_start. rewrite !forallb_app, plan_events_spawn.
  destruct (pipeline_feedback parsed_args startup_args w);
    by destruct (truthy (Args.websocket_url parsed_args)).
Qed.

Section RunOnce.

Variable X : Collaborators.

Lemma run_check_controller_run startup_args w url :
  check_controller_connection startup_args = true ->
  controller_url startup_args = Some url ->
  truthy (Some url) = true ->
  run_check_controller X startup_args w
  = if validate_url X url "controller" then
      let runner := configured_runner startup_args (w_runner w) in
      let answer := get_config X (w_trace w) runner in
      (probe_outcome X answer,
       mkWorld (w_trace w ++ [EvGetConfig runner answer]) (w_environ w)
         (w_log w ++ probe_records X answer) runner (w_queues w)
         (w_next_id w))
    else (Raise (new_exc InvalidUrlException "Invalid controller url."), w).
Proof.
  intros Hflag Hurl Htruthy.
  unfold run_check_controller, validate_controller_params, configured_runner,
    probe_outcome, probe_records.
  rewrite Hflag, Hurl, Htruthy, when_true.
  destruct (validate_url X url "controller"); cbn [negb]; run_steps; [|done].
  destruct (truthy (controller_ssl_verify startup_args)); run_steps;
    destruct (truthy (controller_username startup_args)
              && truthy (controller_password startup_args)); run_steps;
    (destruct (get_config X _ _) as [data|e]; run_steps;
     [destruct (dict_get "version" data); run_steps|]);
    by rewrite ?app_nil_r.
Qed.

Lemma run_check_controller_grows startup_args w :
  grows startup_event w (snd (run_check_controller X startup_args w))
  /\ w_environ (snd (run_check_controller X startup_args w)) = w_environ w.
Proof.
  unfold run_check_controller.
  destruct (check_controller_connection startup_args).
  - apply validate_controller_params_grows.
  - split; [apply grows_refl|done].
Qed.

Lemma setenv_events_kind env :
  forallb startup_event (setenv_events X env) = true.
Proof. by induction env as [|kv env IH]. Qed.

Lemma run_startup_checks_grows startup_args w :
  grows startup_event w (snd (run_startup_checks X startup_args w)).
Proof.
  unfold run_startup_checks. rewrite bind_run.
  pose proof (run_validate_and_export_run X startup_args w) as H.
  destruct (run_validate_and_export X startup_args w) as [[sa|e] w1];
    cbn [fst snd] in H.
  - destruct H as (_ & _ & Ht & _). rewrite bind_run.
    pose proof (run_check_controller_grows sa w1) as [Hg _].
    assert (grows startup_event w w1) as Hg1
      by (exists (setenv_events X (env_vars sa));
          split; [done|apply setenv_events_kind]).
    destruct (run_check_controller X sa w1) as [[[]|e] w2]; cbn [snd] in *;
      by apply (grows_trans _ _ w1).
  - exact H.
Qed.

Lemma run_startup_run parsed_args w :
  grows startup_event w (snd (run_startup X parsed_args w))
  /\ forall startup_args file_monitor,
       fst (run_startup X parsed_args w) = Ok (startup_args, file_monitor) ->
       file_monitor
       = if monitoring_armed X parsed_args w
         then Args.rulebook parsed_args else None.
Proof.
  unfold run_startup. rewrite bind_run.
  pose proof (run_startup_args_run X parsed_args w) as (Hg & _ & Hfm).
  destruct (run_startup_args X parsed_args w) as [[[sa fm]|e] w1];
    cbn [fst snd] in *; [|split; [done|intros ? ? [=]]].
  rewrite bind_run.
  pose proof (run_startup_checks_grows sa w1) as Hg2.
  destruct (run_startup_checks X sa w1) as [[sa'|e] w2]; cbn [fst snd] in *.
  - rewrite ret_run. cbn [fst snd]. split; [by apply (grows_trans _ _ w1)|].
    intros ? ? [= _ <-]. by apply (Hfm sa).
  - split; [by apply (grows_trans _ _ w1)|intros ? ? [=]].
Qed.

(** What one pass looks like once the driver has returned. *)
Lemma run_once_driver_returned parsed_args w new c b :
  w_trace (snd (run_once X parsed_args w)) = w_trace w ++ new ->
  EvRunRulesets c (Ok b) ∈ new ->
  exists startup_args file_monitor w1 d1,
    run_startup X parsed_args w = (Ok (startup_args, file_monitor), w1)
    /\ w_trace w1 = w_trace w ++ d1
    /\ forallb startup_event d1 = true
    /\ c = pipeline_call parsed_args startup_args file_monitor w1
    /\ pipeline_answer X parsed_args startup_args file_monitor w1 = Ok b
    /\ new
       = d1 ++ pipeline_start parsed_args startup_args w1
         ++ [EvRunRulesets c (Ok b)]
         ++ shutdown_events X
              (pipeline_history X parsed_args startup_args file_monitor w1)
              (pipeline_event_log parsed_args w1)
              (pipeline_feedback parsed_args startup_args w1)
              (pipeline_tasks parsed_args startup_args w1)
    /\ fst (run_once X parsed_args w)
       = shutdown_outcome X
           (pipeline_history X parsed_args startup_args file_monitor w1)
           (pipeline_event_log parsed_args w1)
           (pipeline_feedback parsed_args startup_args w1)
           (pipeline_tasks parsed_args startup_args w1) b
    /\ w_environ (snd (run_once X parsed_args w)) = w_environ w1.
Proof.
  unfold run_once. rewrite bind_run.
  pose proof (run_startup_run parsed_args w) as [(d1 & Hd1 & Hk1) _].
  destruct (run_startup X parsed_args w) as [[[sa fm]|e] w1]; cbn [fst snd] in *.
  - pose proof (run_pipeline_run X parsed_args sa fm w1) as (Hout & Htr & Henv).
    intros Hnew Hin. rewrite Htr, Hd1, <- app_assoc in Hnew.
    apply app_inv_head in Hnew. subst new.
    exists sa, fm, w1, d1. split; [done|]. split; [done|]. split; [done|].
    assert (forall e, e ∈ d1 -> is_driver_call e = false) as Hn1.
    { intros e He. pose proof (forallb_elem _ _ _ Hk1 He). by destruct e. }
    assert (forall e, e ∈ pipeline_start parsed_args sa w1 ->
                      is_driver_call e = false) as Hn2.
    { intros e He.
      pose proof (forallb_elem _ _ _ (pipeline_start_kind parsed_args sa w1) He)
        as [_ H]%andb_true_iff. by apply negb_true_iff in H. }
    unfold pipeline_events in Hin.
    apply elem_of_app in Hin as [Hin|Hin]; [by apply Hn1 in Hin|].
    apply elem_of_app in Hin as [Hin|Hin]; [by apply Hn2 in Hin|].
    apply elem_of_cons in Hin as [Heq|Hin].
    + injection Heq as -> Hans. unfold pipeline_outcome in Hout.
      unfold pipeline_events. rewrite <- Hans. rewrite <- Hans in Hout.
      split; [done|]. split; [done|]. split; [done|]. by split.
    + destruct (pipeline_answer X parsed_args sa fm w1);
        [|by apply elem_of_nil in Hin].
      pose proof (forallb_elem _ _ _ (shutdown_events_kind X _ _ _ _) Hin) as H.
      by apply andb_true_iff in H as [[_ H]%andb_true_iff _].
  - intros Hnew Hin. rewrite Hd1 in Hnew. apply app_inv_head in Hnew. subst new.
    pose proof (forallb_elem _ _ _ Hk1 Hin). done.
Qed.

End RunOnce.

(** ** Shutdown: what is collected and in which order *)

Lemma is_source_failure_spec (r : TaskResult) :
  is_source_failure r = true
  <-> exists e, r = Failed e
                /\ isinstance_Exception (exc_class e) = true
                /\ exc_class e <> CancelledError.
Proof.
  destruct r as [v|e]; simpl.
  - split; [done|]. by intros (e & ? & _).
  - rewrite andb_true_iff, negb_true_iff. split.
    + intros [H1 H2]. exists e. split; [done|]. split; [done|].
      intros Hc. by rewrite Hc in H2.
    + intros (e' & [= <-] & H1 & H2). split; [done|].
      by destruct (exc_class e).
Qed.

Lemma existsb_failure_zip (tasks : list Task) : forall results,
  length results = length tasks ->
  existsb is_source_failure results = true
  <-> exists t e, (t, Failed e) ∈ zip tasks results
                  /\ isinstance_Exception (exc_class e) = true
                  /\ exc_class e <> CancelledError.
Proof.
  induction tasks as [|t tasks IH]; intros [|r results] Hlen;
    try discriminate; simpl.
  - split; [done|]. by intros (? & ? & ?%elem_of_nil & _).
  - injection Hlen as Hlen. rewrite orb_true_iff, (IH results Hlen),
      is_source_failure_spec. split.
    + intros [(e & -> & H1 & H2)|(t' & e & Hin & H1 & H2)].
      * exists t, e. split; [apply list_elem_of_here|done].
      * exists t', e. split; [by apply list_elem_of_further|done].
    + intros (t' & e & Hin & H1 & H2).
      apply elem_of_cons in Hin as [[= -> <-]|Hin].
      * left. by exists e.
      * right. by exists t', e.
Qed.

Lemma plan_tasks_are_sources variables source_dirs shutdown_delay rulesets :
  forall n t,
  t ∈ concat (map snd (spawn_plan variables source_dirs shutdown_delay n
                         rulesets)) ->
  exists source queue,
    task_coro t
    = start_source source source_dirs variables queue shutdown_delay.
Proof.
  induction rulesets as [|r rest IH]; intros n t; simpl.
  - by intros ?%elem_of_nil.
  - intros [Hin|Hin]%elem_of_app; [|by apply IH in Hin].
    revert Hin. generalize (S n). induction (sources r) as [|s srcs IHs];
      intros m Hin.
    + by apply elem_of_nil in Hin.
    + rewrite group_tasks_cons in Hin.
      apply elem_of_cons in Hin as [->|Hin]; [by eexists _, _|by apply IHs in Hin].
Qed.

Lemma omap_none {A B} (f : A -> option B) (P : A -> bool) (l : list A) :
  (forall x, P x = true -> f x = None) ->
  forallb P l = true -> omap f l = [].
Proof.
  intros Hf. induction l as [|x l IH]; [done|].
  cbn [forallb]. intros [Hx Hl]%andb_true_iff.
  change (omap f (x :: l))
    with (match f x with Some y => y :: omap f l | None => omap f l end).
  by rewrite (Hf x Hx), IH.
Qed.

Lemma awaited_awaits (tasks : list Task) : forall results,
  awaited (zip_with EvAwait tasks results) = zip tasks results.
Proof.
  induction tasks as [|t tasks IH]; intros [|r results]; try done.
  unfold awaited in *. simpl. f_equal. apply IH.
Qed.

Lemma awaits_kind (tasks : list Task) : forall results,
  forallb (fun e => match e with EvAwait _ _ => true | _ => false end)
    (zip_with EvAwait tasks results) = true.
Proof.
  induction tasks as [|t tasks IH]; intros [|r results]; simpl; try done;
    apply IH.
Qed.

Lemma cancelled_cancels (tasks : list Task) :
  cancelled_tasks (map EvCancel tasks) = tasks.
Proof.
  induction tasks as [|t tasks IH]; [done|].
  unfold cancelled_tasks in *. simpl. by f_equal.
Qed.

Lemma cancels_kind (tasks : list Task) :
  forallb (fun e => match e with EvCancel _ => true | _ => false end)
    (map EvCancel tasks) = true.
Proof. by induction tasks as [|t tasks IH]. Qed.

Lemma awaited_elem (tr : list Event) (t : Task) (r : TaskResult) :
  (t, r) ∈ awaited tr <-> EvAwait t r ∈ tr.
Proof.
  unfold awaited. rewrite list_elem_of_omap. split.
  - intros (e & He & Heq). destruct e; try discriminate. by injection Heq as -> ->.
  - intros He. by exists (EvAwait t r).
Qed.

Ltac omap_gone l H :=
  unshelve erewrite (omap_none _ _ l _ H); [by intros []|].

Section Shutdown.

Variable X : Collaborators.

(** The shape shared by the statements below: the events after the
    driver's return, the tasks they range over, and the outcome. *)
Lemma run_once_shutdown_shape parsed_args w new c b :
  w_trace (snd (run_once X parsed_args w)) = w_trace w ++ new ->
  EvRunRulesets c (Ok b) ∈ new ->
  exists before source_tasks feedback wait results closed,
    new = before ++ [EvRunRulesets c (Ok b)]
          ++ [EvPut (dc_event_log c) exit_entry] ++ wait
          ++ map EvCancel (source_tasks ++ option_list feedback)
          ++ zip_with EvAwait (source_tasks ++ option_list feedback) results
          ++ [EvCloseSession closed]
    /\ created_tasks before = source_tasks ++ option_list feedback
    /\ Forall (fun t => forall log,
                 task_coro t <> send_event_log_to_websocket log) source_tasks
    /\ match feedback with
       | Some t =>
           truthy (Args.websocket_url parsed_args) = true
           /\ task_coro t = send_event_log_to_websocket (dc_event_log c)
           /\ exists done, wait = [EvWait t (max_feedback_timeout X) done]
       | None =>
           truthy (Args.websocket_url parsed_args) = false /\ wait = []
       end
    /\ length results = length (source_tasks ++ option_list feedback)
    /\ NoDup (map task_id (source_tasks ++ option_list feedback))
    /\ fst (run_once X parsed_args w)
       = match closed with
         | Raise e => Raise e
         | Ok _ =>
             if existsb is_source_failure results
             then Raise (new_exc PyException "One of the source plugins failed")
             else if b then Ok Reload else Ok Finished
         end.
Proof.
  intros Hnew Hin.
  destruct (run_once_driver_returned X parsed_args w new c b Hnew Hin)
    as (sa & fm & w1 & d1 & Hs & Ht & Hk & Hc & Hans & Hshape & Hout & Henv).
  set (h := pipeline_history X parsed_args sa fm w1) in *.
  set (log := pipeline_event_log parsed_args w1) in *.
  set (fb := pipeline_feedback parsed_args sa w1) in *.
  exists (d1 ++ pipeline_start parsed_args sa w1),
    (concat (map snd (pipeline_plan parsed_args sa w1))), fb,
    (shutdown_wait X h log fb),
    (shutdown_results X h log fb (pipeline_tasks parsed_args sa w1)),
    (shutdown_closed X h log fb (pipeline_tasks parsed_args sa w1)).
  assert (dc_event_log c = log) as Hlog by (by rewrite Hc).
  rewrite Hlog. fold (pipeline_tasks parsed_args sa w1).
  split.
  { rewrite Hshape. unfold shutdown_events, shutdown_prefix.
    by rewrite <- !app_assoc. }
  split.
  { rewrite created_tasks_app, pipeline_start_tasks,
      (created_tasks_none d1); [done|].
    apply (forallb_weaken startup_event); [|done]. by intros []. }
  split.
  { apply Forall_forall. intros t Hin' log' Heq.
    apply plan_tasks_are_sources in Hin' as (s & q & Hcoro). congruence. }
  split.
  { unfold fb, pipeline_feedback, shutdown_wait, log, pipeline_event_log.
    destruct (truthy (Args.websocket_url parsed_args)); [|done].
    split; [done|]. split; [done|]. by eexists. }
  split.
  { unfold shutdown_results. apply gather_results_length. }
  split; [apply pipeline_tasks_nodup|].
  rewrite Hout. unfold shutdown_outcome. by destruct (shutdown_closed _ _ _ _ _).
Qed.

(** The same pass seen as totals over its whole trace. *)
Lemma run_once_shutdown_totals parsed_args w new c b :
  w_trace (snd (run_once X parsed_args w)) = w_trace w ++ new ->
  EvRunRulesets c (Ok b) ∈ new ->
  exists before tasks results closed,
    new = before ++ map EvCancel tasks ++ zip_with EvAwait tasks results
          ++ [EvCloseSession closed]
    /\ created_tasks before = tasks
    /\ created_tasks new = tasks
    /\ cancelled_tasks new = tasks
    /\ awaited new = zip tasks results
    /\ close_answers new = [closed]
    /\ length results = length tasks
    /\ NoDup (map task_id tasks)
    /\ fst (run_once X parsed_args w)
       = match closed with
         | Raise e => Raise e
         | Ok _ =>
             if existsb is_source_failure results
             then Raise (new_exc PyException "One of the source plugins failed")
             else if b then Ok Reload else Ok Finished
         end.
Proof.
  intros Hnew Hin.
  destruct (run_once_driver_returned X parsed_args w new c b Hnew Hin)
    as (sa & fm & w1 & d1 & Hs & Ht & Hk & Hc & Hans & Hshape & Hout & Henv).
  set (h := pipeline_history X parsed_args sa fm w1) in *.
  set (log := pipeline_event_log parsed_args w1) in *.
  set (fb := pipeline_feedback parsed_args sa w1) in *.
  set (tasks := pipeline_tasks parsed_args sa w1) in *.
  set (results := shutdown_results X h log fb tasks) in *.
  set (closed := shutdown_closed X h log fb tasks) in *.
  pose proof (pipeline_start_spawn parsed_args sa w1) as Hstart.
  pose proof (pipeline_start_tasks parsed_args sa w1) as Hstart_tasks.
  fold tasks in Hstart_tasks.
  set (start := pipeline_start parsed_args sa w1) in *.
  assert (forallb (fun e => match e with EvWait _ _ _ => true | _ => false end)
            (shutdown_wait X h log fb) = true) as Hwait
    by (unfold shutdown_wait; by destruct fb).
  set (wait := shutdown_wait X h log fb) in *.
  pose proof (cancels_kind tasks) as Hcancels.
  pose proof (awaits_kind tasks results) as Hawaits.
  assert (new = d1 ++ start ++ [EvRunRulesets c (Ok b)] ++ [EvPut log exit_entry]
                ++ wait ++ map EvCancel tasks
                ++ zip_with EvAwait tasks results ++ [EvCloseSession closed])
    as Hnew'.
  { rewrite Hshape. unfold shutdown_events, shutdown_prefix.
    by rewrite <- !app_assoc. }
  clearbody start wait. clear Hshape.
  exists (d1 ++ start ++ [EvRunRulesets c (Ok b)] ++ [EvPut log exit_entry]
          ++ wait), tasks, results, closed.
  split; [by rewrite Hnew', <- !app_assoc|].
  assert (created_tasks (d1 ++ start ++ [EvRunRulesets c (Ok b)]
                         ++ [EvPut log exit_entry] ++ wait) = tasks) as Hcr.
  { rewrite !created_tasks_app, Hstart_tasks.
    rewrite (created_tasks_none d1)
      by (apply (forallb_weaken startup_event); [by intros []|done]).
    rewrite (created_tasks_none wait)
      by (eapply forallb_weaken; [|exact Hwait]; by intros []).
    simpl. by rewrite app_nil_r. }
  split; [done|].
  split.
  { rewrite Hnew'.
    rewrite (app_assoc d1), (app_assoc (d1 ++ start)),
      (app_assoc ((d1 ++ start) ++ _)), (app_assoc (((d1 ++ start) ++ _) ++ _)).
    rewrite created_tasks_app.
    rewrite <- !app_assoc, Hcr.
    rewrite !created_tasks_app.
    rewrite (created_tasks_none (map EvCancel tasks))
      by (eapply forallb_weaken; [|exact Hcancels]; by intros []).
    rewrite (created_tasks_none (zip_with EvAwait tasks results))
      by (eapply forallb_weaken; [|exact Hawaits]; by intros []).
    simpl. by rewrite app_nil_r. }
  split.
  { rewrite Hnew'. unfold cancelled_tasks. rewrite !omap_app.
    fold (cancelled_tasks (map EvCancel tasks)). rewrite cancelled_cancels.
    omap_gone d1 Hk.
    omap_gone start Hstart.
    omap_gone wait Hwait.
    omap_gone (zip_with EvAwait tasks results) Hawaits.
    simpl. by rewrite app_nil_r. }
  split.
  { rewrite Hnew'. unfold awaited. rewrite !omap_app.
    fold (awaited (zip_with EvAwait tasks results)). rewrite awaited_awaits.
    omap_gone d1 Hk.
    omap_gone start Hstart.
    omap_gone wait Hwait.
    omap_gone (map EvCancel tasks) Hcancels.
    simpl. by rewrite app_nil_r. }
  split.
  { rewrite Hnew'. unfold close_answers. rewrite !omap_app.
    omap_gone d1 Hk.
    omap_gone start Hstart.
    omap_gone wait Hwait.
    omap_gone (map EvCancel tasks) Hcancels.
    omap_gone (zip_with EvAwait tasks results) Hawaits.
    done. }
  split; [apply gather_results_length|].
  split; [apply pipeline_tasks_nodup|].
  rewrite Hout. unfold shutdown_outcome. fold closed results.
  by destruct closed.
Qed.

End Shutdown.

Section ShutdownClaims.

Variable X : Collaborators.

(** C2.  Once the driver has returned, the pass ends with the
    cancellation of every task it created, then the await of each of
    them, then the close of the session.  Over the whole pass the tasks
    created, the tasks cancelled and the tasks awaited are the same list
    without repetition, so every task is awaited exactly once, and one
    result per task is collected whatever the tasks raised.  If closing
    succeeds, the pass ends with the single exception "One of the source
    plugins failed" exactly when some collected result is an exception
    other than a cancellation. *)
Theorem shutdown_collects_every_result parsed_args w new c b :
  w_trace (snd (run_once X parsed_args w)) = w_trace w ++ new ->
  EvRunRulesets c (Ok b) ∈ new ->
  exists before tasks results closed,
    new = before ++ map EvCancel tasks ++ zip_with EvAwait tasks results
          ++ [EvCloseSession closed]
    /\ created_tasks before = tasks
    /\ created_tasks new = tasks
    /\ cancelled_tasks new = tasks
    /\ awaited new = zip tasks results
    /\ length results = length tasks
    /\ NoDup (map task_id tasks)
    /\ (closed = Ok tt ->
        fst (run_once X parsed_args w)
        = Raise (new_exc PyException "One of the source plugins failed")
        <-> exists t e,
              (t, Failed e) ∈ zip tasks results
              /\ isinstance_Exception (exc_class e) = true
              /\ exc_class e <> CancelledError).
Proof.
  intros Hnew Hin.
  destruct (run_once_shutdown_totals X parsed_args w new c b Hnew Hin)
    as (before & tasks & results & closed
        & Hshape & Hbefore & Hcreated & Hcancelled & Hawaited & _
        & Hlen & Hnd & Hout).
  exists before, tasks, results, closed.
  split; [done|]. split; [done|]. split; [done|]. split; [done|].
  split; [done|]. split; [done|]. split; [done|].
  intros ->. rewrite Hout, <- (existsb_failure_zip _ _ Hlen).
  destruct (existsb is_source_failure results); [done|].
  by destruct b.
Qed.

(** C3.  After the driver returns, the trace continues with the put of
    the Exit entry on the event log, then, only when a feedback task
    exists, one wait for it with the configured timeout whose result is
    not inspected, then the cancellation of every task created in the
    pass and the await of each of them. *)
Theorem shutdown_sequence_order parsed_args w new c b :
  w_trace (snd (run_once X parsed_args w)) = w_trace w ++ new ->
  EvRunRulesets c (Ok b) ∈ new ->
  exists before tasks wait results closed,
    new = before
          ++ [EvRunRulesets c (Ok b); EvPut (dc_event_log c) exit_entry]
          ++ wait ++ map EvCancel tasks ++ zip_with EvAwait tasks results
          ++ [EvCloseSession closed]
    /\ created_tasks before = tasks
    /\ length results = length tasks
    /\ if truthy (Args.websocket_url parsed_args)
       then exists source_tasks t done,
              tasks = source_tasks ++ [t]
              /\ task_coro t = send_event_log_to_websocket (dc_event_log c)
              /\ wait = [EvWait t (max_feedback_timeout X) done]
       else wait = []
            /\ Forall (fun t => forall log,
                         task_coro t <> send_event_log_to_websocket log)
                      tasks.
Proof.
  intros Hnew Hin.
  destruct (run_once_shutdown_shape X parsed_args w new c b Hnew Hin)
    as (before & srcs & fb & wait & results & closed
        & Hshape & Hcreated & Hsrc & Hfb & Hlen & Hnd & Hout).
  exists before, (srcs ++ option_list fb), wait, results, closed.
  split; [by rewrite Hshape|]. split; [done|]. split; [done|].
  destruct fb as [t|].
  - destruct Hfb as (-> & Hcoro & done & ->). by exists srcs, t, done.
  - destruct Hfb as (-> & ->). split; [done|]. simpl. by rewrite app_nil_r.
Qed.

(** C5.  The pass ends with the awaits of the tasks it created and then
    the one close of the controller session.  If the close raises, [run]
    raises that exception.  If it succeeds: when some await of the pass
    returned an exception other than a cancellation, [run] raises "One of
    the source plugins failed", whether or not the driver asked for a
    reload; otherwise, when the driver asked for a reload, [run]
    continues as [run] on the same namespace from the world the pass
    left; otherwise [run] returns. *)
Theorem run_end_precedence parsed_args w new c b fuel :
  w_trace (snd (run_once X parsed_args w)) = w_trace w ++ new ->
  EvRunRulesets c (Ok b) ∈ new ->
  exists before tasks results closed,
    new = before ++ zip_with EvAwait tasks results ++ [EvCloseSession closed]
    /\ created_tasks new = tasks
    /\ awaited new = zip tasks results
    /\ close_answers new = [closed]
    /\ length results = length tasks
    /\ match closed with
       | Raise e =>
           run X (S fuel) parsed_args w
           = (Raised e, snd (run_once X parsed_args w))
       | Ok _ =>
           let failed :=
             exists t e,
               EvAwait t (Failed e) ∈ new
               /\ isinstance_Exception (exc_class e) = true
               /\ exc_class e <> CancelledError in
           (failed ->
            run X (S fuel) parsed_args w
            = (Raised (new_exc PyException "One of the source plugins failed"),
               snd (run_once X parsed_args w)))
           /\ (~ failed -> b = true ->
               run X (S fuel) parsed_args w
               = run X fuel parsed_args (snd (run_once X parsed_args w)))
           /\ (~ failed -> b = false ->
               run X (S fuel) parsed_args w
               = (Return, snd (run_once X parsed_args w)))
       end.
Proof.
  intros Hnew Hin.
  destruct (run_once_shutdown_totals X parsed_args w new c b Hnew Hin)
    as (before & tasks & results & closed
        & Hshape & _ & Hcreated & _ & Hawaited & Hclose
        & Hlen & _ & Hout).
  exists (before ++ map EvCancel tasks), tasks, results, closed.
  split; [by rewrite Hshape, <- !app_assoc|].
  split; [done|]. split; [done|]. split; [done|]. split; [done|].
  simpl run. destruct (run_once X parsed_args w) as [r w'].
  cbn [fst snd] in *. subst r.
  destruct closed as [[]|e]; [|done].
  assert ((exists t e,
             EvAwait t (Failed e) ∈ new
             /\ isinstance_Exception (exc_class e) = true
             /\ exc_class e <> CancelledError)
          <-> existsb is_source_failure results = true) as Hz.
  { rewrite (existsb_failure_zip _ _ Hlen), <- Hawaited.
    by setoid_rewrite awaited_elem. }
  cbn zeta. destruct (existsb is_source_failure results).
  - split; [done|]. split; intros Hno; destruct Hno; by apply Hz.
  - split; [intros Hf; apply Hz in Hf; discriminate|].
    split; by intros _ ->.
Qed.

(** C9.  With a websocket URL configured, the last task created in the
    pass is the feedback task; it is cancelled and awaited with the source
    tasks, and when its result is an exception other than a cancellation
    and the session closes, the pass raises "One of the source plugins
    failed". *)
Theorem feedback_failure_fails_run parsed_args w new c b :
  w_trace (snd (run_once X parsed_args w)) = w_trace w ++ new ->
  EvRunRulesets c (Ok b) ∈ new ->
  truthy (Args.websocket_url parsed_args) = true ->
  exists before source_tasks t results r closed,
    new = before ++ map EvCancel (source_tasks ++ [t])
          ++ zip_with EvAwait (source_tasks ++ [t]) (results ++ [r])
          ++ [EvCloseSession closed]
    /\ created_tasks before = source_tasks ++ [t]
    /\ task_coro t = send_event_log_to_websocket (dc_event_log c)
    /\ length results = length source_tasks
    /\ forall e,
         r = Failed e ->
         isinstance_Exception (exc_class e) = true ->
         exc_class e <> CancelledError ->
         closed = Ok tt ->
         fst (run_once X parsed_args w)
         = Raise (new_exc PyException "One of the source plugins failed").
Proof.
  intros Hnew Hin Hws.
  destruct (run_once_shutdown_shape X parsed_args w new c b Hnew Hin)
    as (before & srcs & fb & wait & results & closed
        & Hshape & Hcreated & _ & Hfb & Hlen & _ & Hout).
  destruct fb as [t|]; [|destruct Hfb as [Hws' _]; congruence].
  destruct Hfb as (_ & Hcoro & done & ->). simpl in *.
  destruct results as [|r results _] using rev_ind.
  { rewrite length_app in Hlen. simpl in Hlen. lia. }
  exists (before ++ [EvRunRulesets c (Ok b)]
          ++ [EvPut (dc_event_log c) exit_entry]
          ++ [EvWait t (max_feedback_timeout X) done]),
    srcs, t, results, r, closed.
  split; [by rewrite Hshape, <- !app_assoc|].
  split; [by rewrite !created_tasks_app, Hcreated, app_nil_r|].
  split; [done|].
  split; [rewrite !length_app in Hlen; simpl in Hlen; lia|].
  intros e -> He Hc ->. rewrite Hout, existsb_app. simpl.
  rewrite He. destruct (exc_class e); try done; by rewrite orb_true_r.
Qed.

End ShutdownClaims.

Lemma sample_trace_run :
  w_trace (snd (run_once sample_X sample_run_args sample_world))
  = w_trace sample_world ++ sample_trace.
Proof. vm_compute. reflexivity. Defined.

Lemma sample_trace_driver :
  EvRunRulesets sample_call (Ok false) ∈ sample_trace.
Proof.
  apply list_elem_of_In. vm_compute.
  repeat (first [left; reflexivity | right]).
Defined.

(** In the sample pass both tasks are cancelled and awaited once. *)
Lemma shutdown_collects_every_result_witness :
  exists tasks results,
    created_tasks sample_trace = tasks
    /\ awaited sample_trace = zip tasks results
    /\ length results = length tasks.
Proof.
  destruct (shutdown_collects_every_result sample_X sample_run_args
              sample_world sample_trace sample_call false
              sample_trace_run sample_trace_driver)
    as (before & tasks & results & closed & _ & _ & H1 & _ & H2 & H3 & _).
  by exists tasks, results.
Defined.

Lemma shutdown_sequence_order_witness :
  exists before tasks wait results closed,
    sample_trace
    = before
      ++ [EvRunRulesets sample_call (Ok false);
          EvPut (dc_event_log sample_call) exit_entry]
      ++ wait ++ map EvCancel tasks ++ zip_with EvAwait tasks results
      ++ [EvCloseSession closed].
Proof.
  destruct (shutdown_sequence_order sample_X sample_run_args
              sample_world sample_trace sample_call false
              sample_trace_run sample_trace_driver)
    as (before & tasks & wait & results & closed & H1 & _).
  by exists before, tasks, wait, results, closed.
Defined.

Lemma reload_trace_run :
  w_trace (snd (run_once reload_X sample_run_args sample_world))
  = w_trace sample_world ++ reload_trace.
Proof. vm_compute. reflexivity. Defined.

Lemma reload_trace_driver :
  EvRunRulesets sample_call (Ok true) ∈ reload_trace.
Proof.
  apply list_elem_of_In. vm_compute.
  repeat (first [left; reflexivity | right]).
Defined.

(** The driver asks for a reload and the feedback task has failed: the
    failure wins. *)
Lemma run_end_precedence_witness :
  fst (run reload_X 1 sample_run_args sample_world)
  = Raised (new_exc PyException "One of the source plugins failed").
Proof.
  destruct (run_end_precedence reload_X sample_run_args sample_world
              reload_trace sample_call true 0
              reload_trace_run reload_trace_driver)
    as (before & tasks & results & closed & _ & _ & _ & Hclose & _ & Hrun).
  vm_compute in Hclose. injection Hclose as <-.
  destruct Hrun as (Hfailed & _). rewrite Hfailed; [reflexivity|].
  exists (mkTask 3 (send_event_log_to_websocket (AsyncQueue 0))),
    (new_exc (OtherException "ConnectionClosed") "socket closed").
  split; [|split; [reflexivity|discriminate]].
  apply list_elem_of_In. vm_compute.
  repeat (first [left; reflexivity | right]).
Defined.

Lemma feedback_failure_fails_run_witness :
  exists t,
    t ∈ created_tasks sample_trace
    /\ task_coro t = send_event_log_to_websocket (dc_event_log sample_call).
Proof.
  destruct (feedback_failure_fails_run sample_X sample_run_args
              sample_world sample_trace sample_call false
              sample_trace_run sample_trace_driver eq_refl)
    as (before & srcs & t & results & r & closed & H1 & H2 & H3 & _).
  exists t. split; [|done].
  rewrite H1, created_tasks_app, H2. apply elem_of_app. left.
  apply elem_of_app. right. apply list_elem_of_here.
Defined.

Section DriverCalls.

Variable X : Collaborators.

Lemma run_once_driver_call parsed_args w new c r :
  w_trace (snd (run_once X parsed_args w)) = w_trace w ++ new ->
  EvRunRulesets c r ∈ new ->
  exists startup_args file_monitor w1,
    run_startup X parsed_args w = (Ok (startup_args, file_monitor), w1)
    /\ c = pipeline_call parsed_args startup_args file_monitor w1.
Proof.
  unfold run_once. rewrite bind_run.
  pose proof (run_startup_run X parsed_args w) as [(d1 & Hd1 & Hk1) _].
  destruct (run_startup X parsed_args w) as [[[sa fm]|e] w1]; cbn [fst snd] in *.
  - pose proof (run_pipeline_run X parsed_args sa fm w1) as (_ & Htr & _).
    intros Hnew Hin. rewrite Htr, Hd1, <- app_assoc in Hnew.
    apply app_inv_head in Hnew. subst new.
    exists sa, fm, w1. split; [done|].
    unfold pipeline_events in Hin.
    apply elem_of_app in Hin as [Hin|Hin];
      [by pose proof (forallb_elem _ _ _ Hk1 Hin)|].
    apply elem_of_app in Hin as [Hin|Hin].
    { pose proof (forallb_elem _ _ _ (pipeline_start_kind parsed_args sa w1) Hin)
        as [_ H]%andb_true_iff. done. }
    apply elem_of_cons in Hin as [Heq|Hin]; [by injection Heq as -> _|].
    destruct (pipeline_answer X parsed_args sa fm w1);
      [|by apply elem_of_nil in Hin].
    pose proof (forallb_elem _ _ _ (shutdown_events_kind X _ _ _ _) Hin) as H.
    by apply andb_true_iff in H as [[_ H]%andb_true_iff _].
  - intros Hnew Hin. rewrite Hd1 in Hnew. apply app_inv_head in Hnew. subst new.
    by pose proof (forallb_elem _ _ _ Hk1 Hin).
Qed.

(** C10.  Whatever call of the driver a pass makes, the path it is given
    to monitor is the rulebook path when the pass did not take the worker
    branch (worker flag, websocket URL and id all set), the hot-reload
    flag is set and the rulebook path exists on disk at startup; in every
    other case it is [None]. *)
Theorem file_monitor_armed_only parsed_args w new c r :
  w_trace (snd (run_once X parsed_args w)) = w_trace w ++ new ->
  EvRunRulesets c r ∈ new ->
  dc_file_monitor c
  = if negb (worker_mode parsed_args)
       && Args.hot_reload parsed_args
       && rulebook_on_disk X parsed_args w
    then Args.rulebook parsed_args
    else None.
Proof.
  intros Hnew Hin.
  destruct (run_once_driver_call parsed_args w new c r Hnew Hin)
    as (sa & fm & w1 & Hs & ->).
  pose proof (run_startup_run X parsed_args w) as [_ Hfm].
  rewrite Hs in Hfm. by apply (Hfm sa).
Qed.

End DriverCalls.

(** Hot-reload requested for an existing rulebook file: it is monitored. *)
Lemma file_monitor_armed_only_witness :
  dc_file_monitor sample_call = Some "rules.yml".
Proof.
  apply (file_monitor_armed_only sample_X sample_run_args sample_world
           sample_trace sample_call (Ok false)
           sample_trace_run sample_trace_driver).
Defined.

Section StartupClaims.

Variable X : Collaborators.



(** C6, as the code has it.  When the controller check is due (the flag
    [check_controller_connection] is set, which [validate_actions] does on
    meeting a controller action) and a controller URL is configured, an
    invalid URL raises InvalidUrlException and leaves the world untouched;
    a valid one is followed by the configuration of the controller client
    with host and token and by one [get_config] probe, and when the probe
    answers with a version the check returns after logging it. *)
Theorem controller_url_checked startup_args w url :
  check_controller_connection startup_args = true ->
  controller_url startup_args = Some url ->
  truthy (Some url) = true ->
  (validate_url X url "controller" = false ->
   run_check_controller X startup_args w
   = (Raise (new_exc InvalidUrlException "Invalid controller url."), w))
  /\ (validate_url X url "controller" = true ->
      exists runner,
        runner_host runner = Some url
        /\ runner_token runner = controller_token startup_args
        /\ w_runner (snd (run_check_controller X startup_args w)) = runner
        /\ w_trace (snd (run_check_controller X startup_args w))
           = w_trace w ++ [EvGetConfig runner (get_config X (w_trace w) runner)]
        /\ forall data version,
             get_config X (w_trace w) runner = Ok data ->
             dict_get "version" data = Some version ->
             fst (run_check_controller X startup_args w) = Ok tt
             /\ w_log (snd (run_check_controller X startup_args w))
                = w_log w ++ [(INFO, "AAP Version " +:+ py_str X version)]).
Proof.
  intros Hflag Hurl Htruthy.
  rewrite (run_check_controller_run X startup_args w url Hflag Hurl Htruthy).
  split; intros ->; [done|].
  exists (configured_runner startup_args (w_runner w)). cbn zeta. cbn [fst snd].
  split.
  { unfold configured_runner. rewrite Hurl.
    by destruct (truthy (controller_ssl_verify startup_args)),
      (truthy (controller_username startup_args)
       && truthy (controller_password startup_args)). }
  split.
  { unfold configured_runner.
    by destruct (truthy (controller_ssl_verify startup_args)),
      (truthy (controller_username startup_args)
       && truthy (controller_password startup_args)). }
  split; [done|]. split; [done|].
  intros data version Hdata Hversion.
  unfold probe_outcome, probe_records. by rewrite Hdata, Hversion.
Qed.

End StartupClaims.

(** An invalid URL with the check due. *)
Lemma controller_url_checked_witness :
  run_check_controller sample_X (controller_args "not a url") sample_world
  = (Raise (new_exc InvalidUrlException "Invalid controller url."),
     sample_world).
Proof.
  apply (controller_url_checked sample_X (controller_args "not a url")
           sample_world "not a url" eq_refl eq_refl eq_refl).
  reflexivity.
Defined.

(** C6 as stated fails: a configured controller URL that is not valid
    goes unchecked when no rule uses a controller action.  The pass ends
    normally and the controller is never probed. *)
Lemma controller_url_unchecked_counterexample :
  let X := sample_collaborators [debug_action] false cancelled in
  let parsed_args := sample_args None (Some "not a url") false in
  truthy (Args.controller_url parsed_args) = true
  /\ validate_url X "not a url" "controller" = false
  /\ fst (run_once X parsed_args sample_world) = Ok Finished
  /\ forallb (fun e => negb (is_get_config e))
       (w_trace (snd (run_once X parsed_args sample_world))) = true.
Proof. vm_compute. by repeat split. Qed.

(** * Further properties of the module *)

(** ** Dictionaries *)

Lemma dict_get_set_eq {V} (k : string) (v : V) (d : list (string * V)) :
  dict_get k (dict_set k v d) = Some v.
Proof.
  induction d as [|[k' v'] d IH]; simpl.
  - by rewrite String.eqb_refl.
  - destruct (String.eqb k k') eqn:E; simpl; [by rewrite String.eqb_refl|].
    by rewrite E.
Qed.

Lemma dict_get_set_ne {V} (k k' : string) (v : V) (d : list (string * V)) :
  k <> k' -> dict_get k' (dict_set k v d) = dict_get k' d.
Proof.
  intros Hne. induction d as [|[k0 v0] d IH]; simpl.
  - destruct (String.eqb k' k) eqn:E; [|done].
    apply String.eqb_eq in E. congruence.
  - destruct (String.eqb k k0) eqn:E; simpl.
    + apply String.eqb_eq in E. subst k0.
      destruct (String.eqb k' k) eqn:E'; [|done].
      apply String.eqb_eq in E'. congruence.
    + by rewrite IH.
Qed.

(** X1.  [log_exception_without_data] never raises and only writes to the
    logger: one ERROR record with the class name and the message,
    followed by one ERROR record per traceback frame, innermost frame
    first; without a traceback only the first record is written. *)
Theorem log_exception_records c v tb w :
  exists w',
    log_exception_without_data c v tb w = (Ok tt, w')
    /\ same_but_log w w'
    /\ w_log w'
       = w_log w
         ++ (ERROR, class_name c +:+ ": " +:+ v)
            :: map (fun frame =>
                      (ERROR, frame_filename frame +:+ ":"
                              +:+ str_nat (frame_lineno frame)
                              +:+ " " +:+ frame_name frame))
                   (rev (default [] tb)).
Proof.
  rewrite log_exception_run. eexists. split; [reflexivity|].
  split; [by repeat split|]. simpl. unfold exception_records.
  by destruct tb.
Qed.

Section LoadVars.

Variable X : Collaborators.

Lemma env_vars_loop_result names : forall d w,
  match for_fold names d (fun env_var variables =>
          w <- get ;;
          match w_environ w !! env_var with
          | None => raise (missing_env_var X env_var)
          | Some v => ret (dict_set env_var (VStr v) variables)
          end) w with
  | (Ok d', _) =>
      (forall n, n ∈ names ->
         exists v, w_environ w !! n = Some v /\ dict_get n d' = Some (VStr v))
      /\ (forall k, k ∉ names -> dict_get k d' = dict_get k d)
  | (Raise e, _) =>
      exists pre n post,
        names = pre ++ n :: post
        /\ (forall m, m ∈ pre -> is_Some (w_environ w !! m))
        /\ w_environ w !! n = None
        /\ e = missing_env_var X n
  end.
Proof.
  induction names as [|n names IH]; intros d w; cbn [for_fold].
  - rewrite ret_run. split; [by intros ? ?%elem_of_nil|done].
  - rewrite bind_run, bind_run, get_run. cbn [fst snd].
    destruct (w_environ w !! n) as [v|] eqn:Hn.
    + rewrite ret_run. specialize (IH (dict_set n (VStr v) d) w).
      destruct (for_fold names _ _ w) as [[d'|e] w'].
      * destruct IH as [Hin Hout]. split.
        -- intros m [->|Hm]%elem_of_cons; [|by apply Hin].
           exists v. split; [done|].
           destruct (decide (n ∈ names)) as [Hm|Hm].
           ++ destruct (Hin n Hm) as (v' & Hv' & Hg). by simplify_eq.
           ++ by rewrite (Hout n Hm), dict_get_set_eq.
        -- intros k Hk. apply not_elem_of_cons in Hk as [Hne Hk].
           rewrite (Hout k Hk). by apply dict_get_set_ne.
      * destruct IH as (pre & m & post & -> & Hpre & Hm & ->).
        exists (n :: pre), m, post. split; [done|]. split; [|done].
        intros m' [->|Hm']%elem_of_cons; [by rewrite Hn|by apply Hpre].
    + rewrite raise_run. exists [], n, names. split; [done|].
      split; [by intros ? ?%elem_of_nil|done].
Qed.

(** X2.  [load_vars] only reads: it leaves the world as it found it.
    When it returns and environment variables were requested, every
    requested name is set in the process environment and the returned
    variables bind it to the environment's value, whatever the variables
    file said about that name. *)
Theorem load_vars_env_values parsed_args names w :
  Args.env_vars parsed_args = Some names ->
  truthy (Some names) = true ->
  snd (load_vars X parsed_args w) = w
  /\ forall variables,
       fst (load_vars X parsed_args w) = Ok variables ->
       forall n, n ∈ split_strip X names ->
         exists v, w_environ w !! n = Some v
                   /\ dict_get n variables = Some (VStr v).
Proof.
  intros Hnames Htruthy. split; [apply load_vars_world|].
  unfold load_vars. rewrite Hnames, Htruthy. intros variables.
  match goal with |- context [bind ?m _ w] => set (file := m) end.
  rewrite bind_run.
  destruct (file w) as [[d|e] w1] eqn:Hfile; [|discriminate].
  assert (w1 = w) as ->.
  { unfold file in Hfile. destruct (Args.vars parsed_args) as [path|];
      [destruct (truthy (Some path))|]; revert Hfile; run_steps;
      [|by intros [= _ ->]..].
    destruct (read_file X _ _); run_steps; [|discriminate].
    destruct (yaml_vars X _); run_steps; [|discriminate].
    by intros [= _ ->]. }
  pose proof (env_vars_loop_result (split_strip X names) d w) as Hloop.
  unfold missing_env_var in Hloop.
  destruct (for_fold _ _ _ w) as [[d'|e] w2]; cbn [fst]; [|discriminate].
  intros [= <-]. apply Hloop.
Qed.

(** X3.  Without a variables file, a requested environment variable that
    is not set makes [load_vars] raise the KeyError that names the first
    such variable. *)
Theorem load_vars_missing_env parsed_args names w pre n post :
  Args.vars parsed_args = None ->
  Args.env_vars parsed_args = Some names ->
  truthy (Some names) = true ->
  split_strip X names = pre ++ n :: post ->
  (forall m, m ∈ pre -> is_Some (w_environ w !! m)) ->
  w_environ w !! n = None ->
  load_vars X parsed_args w = (Raise (missing_env_var X n), w).
Proof.
  intros Hvars Hnames Htruthy Hsplit Hpre Hn.
  pose proof (load_vars_world X parsed_args w) as Hw.
  unfold load_vars in *. rewrite Hvars, Hnames, Htruthy in *.
  rewrite bind_run, ret_run in *. cbn [fst snd] in *.
  pose proof (env_vars_loop_result (split_strip X names) [] w) as Hloop.
  unfold missing_env_var in *.
  destruct (for_fold _ _ _ w) as [[d'|e] w2]; cbn [snd] in Hw; subst w2.
  - destruct Hloop as [Hin _]. destruct (Hin n) as (v & Hv & _); [|congruence].
    rewrite Hsplit. apply elem_of_app. right. apply list_elem_of_here.
  - destruct Hloop as (pre' & n' & post' & Hsplit' & Hpre' & Hn' & ->).
    rewrite Hsplit in Hsplit'. assert (n' = n) as ->; [|done].
    clear -Hsplit' Hpre Hpre' Hn Hn'. revert pre' Hsplit' Hpre'.
    induction pre as [|p pre IH]; intros [|p' pre'] Heq Hpre'; simpl in Heq.
    + by injection Heq as -> _.
    + injection Heq as -> _. destruct (Hpre' p') as [? H];
        [apply list_elem_of_here|congruence].
    + injection Heq as -> _. destruct (Hpre n') as [? H];
        [apply list_elem_of_here|congruence].
    + injection Heq as -> Heq. apply (IH (fun m Hm => Hpre m (list_elem_of_further _ _ _ Hm)) pre' Heq).
      intros m Hm. apply Hpre'. by apply list_elem_of_further.
Qed.

End LoadVars.

Lemma load_vars_env_values_witness :
  exists v, w_environ home_world !! "HOME" = Some v
            /\ dict_get "HOME" [("HOME", VStr "/root")] = Some (VStr v).
Proof.
  apply (proj2 (load_vars_env_values sample_X (env_args "HOME") "HOME"
                  home_world eq_refl eq_refl)
           [("HOME", VStr "/root")]).
  - vm_compute. reflexivity.
  - vm_compute. apply list_elem_of_here.
Defined.

Lemma load_vars_missing_env_witness :
  load_vars sample_X (env_args "EDITOR") home_world
  = (Raise (missing_env_var sample_X "EDITOR"), home_world).
Proof.
  apply (load_vars_missing_env sample_X (env_args "EDITOR") "EDITOR"
           home_world [] "EDITOR" [] eq_refl eq_refl eq_refl eq_refl).
  - intros m Hm. by apply elem_of_nil in Hm.
  - vm_compute. reflexivity.
Defined.

Section LoadRulebook.

Variable X : Collaborators.

(** X4.  A rulebook name that is neither a file on disk nor a rulebook of
    an installed collection makes [load_rulebook] raise
    RulebookNotFoundException naming it; nothing but the logger is
    touched. *)
Theorem load_rulebook_not_found parsed_args startup_args w path :
  Args.rulebook parsed_args = Some path ->
  truthy (Some path) = true ->
  path_exists X (w_trace w) path = false ->
  has_rulebook X (w_trace w) path = false ->
  load_rulebook X parsed_args startup_args w
  = (Raise (new_exc RulebookNotFoundException
              ("Could not find rulebook " +:+ path)), w).
Proof.
  intros Hrb Htruthy Hfile Hcoll. unfold load_rulebook.
  rewrite Hrb, Htruthy. cbn [negb]. run_steps. by rewrite Hfile, Hcoll.
Qed.

(** X5.  A rulebook found on disk is read from disk, whether or not a
    collection offers one of the same name: the rulesets are those parsed
    from the file with the variables loaded so far, and [check_vault]
    becomes whether the raw file content holds a vaulted string. *)
Theorem load_rulebook_from_file parsed_args startup_args w path raw rulesets :
  Args.rulebook parsed_args = Some path ->
  truthy (Some path) = true ->
  path_exists X (w_trace w) path = true ->
  read_file X (w_trace w) path = Ok raw ->
  parse_rulebook X raw (variables startup_args) = Ok rulesets ->
  fst (load_rulebook X parsed_args (Some startup_args) w)
  = Ok (rulesets,
        Some (set_check_vault (has_vaulted_str X raw) startup_args)).
Proof.
  intros Hrb Htruthy Hfile Hread Hparse. unfold load_rulebook.
  rewrite Hrb, Htruthy. cbn [negb]. run_steps. rewrite Hfile. run_steps.
  rewrite Hread. run_steps. cbn [option_map].
  replace (variables (set_check_vault (has_vaulted_str X raw) startup_args))
    with (variables startup_args) by (by destruct startup_args).
  rewrite Hparse. by run_steps.
Qed.

(** X6.  Without a rulebook argument [load_rulebook] returns no rulesets
    and leaves the startup arguments as they are. *)
Theorem load_rulebook_none parsed_args startup_args w :
  truthy (Args.rulebook parsed_args) = false ->
  fst (load_rulebook X parsed_args startup_args w) = Ok ([], startup_args).
Proof.
  intros Hrb. unfold load_rulebook.
  destruct (Args.rulebook parsed_args) as [path|]; [|by run_steps].
  rewrite Hrb. cbn [negb]. by run_steps.
Qed.

End LoadRulebook.

Lemma load_rulebook_not_found_witness :
  load_rulebook sample_X missing_rulebook_args None sample_world
  = (Raise (new_exc RulebookNotFoundException
              ("Could not find rulebook " +:+ "absent.yml")), sample_world).
Proof.
  apply (load_rulebook_not_found sample_X missing_rulebook_args None
           sample_world "absent.yml" eq_refl eq_refl eq_refl eq_refl).
Defined.

Lemma load_rulebook_from_file_witness :
  fst (load_rulebook sample_X sample_run_args (Some (bare_args []))
         sample_world)
  = Ok (one_rule [debug_action],
        Some (set_check_vault false (bare_args []))).
Proof.
  apply (load_rulebook_from_file sample_X sample_run_args (bare_args [])
           sample_world "rules.yml" "" (one_rule [debug_action])
           eq_refl eq_refl eq_refl eq_refl eq_refl).
Defined.

Lemma load_rulebook_none_witness :
  fst (load_rulebook sample_X worker_args None sample_world) = Ok ([], None).
Proof.
  apply (load_rulebook_none sample_X worker_args None sample_world eq_refl).
Defined.

Section ValidateMore.

Variable fs : string -> bool.
Variable decryptable : PyValue -> Res unit.

Lemma validate_loop_ok startup_args (l : list (Rule * Action)) : forall s,
  same_config s startup_args ->
  Forall (fun ra =>
            inventory_check_fails fs startup_args (snd ra) = false
            /\ controller_check_fails startup_args (snd ra) = false
            /\ vault_check_fails decryptable startup_args (snd ra) = false) l ->
  for_each l (fun ra => validate_action fs decryptable (fst ra) (snd ra)) s
  = (Ok tt,
     if existsb needs_controller (map snd l)
     then set_check_controller_connection true s else s).
Proof.
  induction l as [|[r a] l IH]; intros s Hs Hall; [done|].
  apply Forall_cons in Hall as [(Hi & Hc & Hv) Hall]. cbn [fst snd] in *.
  cbn [for_each map existsb]. rewrite bind_run, validate_action_run.
  rewrite (inventory_check_config fs s startup_args),
    (controller_check_config s startup_args) by done.
  cbn [fst snd]. rewrite Hi, Hc.
  rewrite vault_check_passes
    by (by rewrite (vault_check_config decryptable s startup_args)).
  rewrite IH by (done || by apply same_config_mark).
  unfold mark_controller.
  destruct (needs_controller a); cbn [orb]; [|done].
  by destruct (existsb needs_controller (map snd l)), s.
Qed.

Lemma validate_loop_fails startup_args (l : list (Rule * Action)) : forall s,
  same_config s startup_args ->
  fst (for_each l (fun ra => validate_action fs decryptable (fst ra) (snd ra)) s)
  = Ok tt ->
  Forall (fun ra =>
            inventory_check_fails fs startup_args (snd ra) = false
            /\ controller_check_fails startup_args (snd ra) = false
            /\ vault_check_fails decryptable startup_args (snd ra) = false) l.
Proof.
  induction l as [|[r a] l IH]; intros s Hs Hok; [constructor|].
  cbn [for_each] in Hok. rewrite bind_run, validate_action_run in Hok.
  rewrite (inventory_check_config fs s startup_args),
    (controller_check_config s startup_args) in Hok by done.
  cbn [fst snd] in Hok.
  destruct (inventory_check_fails fs startup_args a) eqn:Hi; [discriminate|].
  destruct (controller_check_fails startup_args a) eqn:Hc; [discriminate|].
  assert (vault_check_fails decryptable startup_args a = false) as Hv.
  { unfold vault_check_fails. destruct Hs as (_ & _ & _ & <-).
    destruct (check_vault s); [|done].
    by destruct (decryptable (action_args a)). }
  rewrite vault_check_passes in Hok
    by (by rewrite (vault_check_config decryptable s startup_args)).
  constructor; [done|]. apply (IH (mark_controller a s)); [|done].
  by apply same_config_mark.
Qed.

(** X7.  [validate_actions] returns without raising exactly when no
    action of any rule fails the inventory check, the controller check
    or, where vault checking is on, the decryptability check. *)
Theorem validate_actions_ok_iff startup_args :
  fst (validate_actions fs decryptable startup_args) = Ok tt
  <-> Forall (fun ra =>
                inventory_check_fails fs startup_args (snd ra) = false
                /\ controller_check_fails startup_args (snd ra) = false
                /\ vault_check_fails decryptable startup_args (snd ra) = false)
             (all_actions startup_args).
Proof.
  rewrite validate_actions_flat. split.
  - apply validate_loop_fails, same_config_refl.
  - intros H. by rewrite (validate_loop_ok startup_args _ startup_args
                            (same_config_refl _) H).
Qed.

(** X8.  When [validate_actions] returns, the only attribute it may have
    changed is [check_controller_connection], which it has set exactly
    when some action is a controller action. *)
Theorem validate_actions_marks_controller startup_args :
  fst (validate_actions fs decryptable startup_args) = Ok tt ->
  snd (validate_actions fs decryptable startup_args)
  = if existsb needs_controller (map snd (all_actions startup_args))
    then set_check_controller_connection true startup_args
    else startup_args.
Proof.
  intros Hok. apply validate_actions_ok_iff in Hok.
  rewrite validate_actions_flat.
  by rewrite (validate_loop_ok startup_args _ startup_args
                (same_config_refl _) Hok).
Qed.

End ValidateMore.

Lemma validate_actions_marks_controller_witness :
  check_controller_connection
    (snd (validate_actions no_files all_decryptable
            (controller_args_with [job_template_action])))
  = true.
Proof.
  rewrite (validate_actions_marks_controller no_files all_decryptable
             (controller_args_with [job_template_action]) eq_refl).
  reflexivity.
Defined.

Section ControllerMore.

Variable X : Collaborators.

(** X9.  Without a controller URL (none, or the empty string)
    [validate_controller_params] does nothing at all: the controller
    client keeps its settings and no probe is made. *)
Theorem validate_controller_params_no_url startup_args w :
  truthy (controller_url startup_args) = false ->
  validate_controller_params X startup_args w = (Ok tt, w).
Proof.
  intros Hurl. unfold validate_controller_params.
  destruct (controller_url startup_args) as [url|]; [|done].
  by rewrite Hurl.
Qed.

(** X10.  For a valid URL the controller client gets host and token from
    the startup arguments; the TLS setting is replaced only by a truthy
    value, and user name and password are replaced only when both are
    truthy, otherwise the client keeps what it had. *)
Theorem validate_controller_params_credentials startup_args w url :
  controller_url startup_args = Some url ->
  truthy (Some url) = true ->
  validate_url X url "controller" = true ->
  let runner := w_runner (snd (validate_controller_params X startup_args w)) in
  runner_host runner = Some url
  /\ runner_token runner = controller_token startup_args
  /\ runner_verify_ssl runner
     = (if truthy (controller_ssl_verify startup_args)
        then controller_ssl_verify startup_args
        else runner_verify_ssl (w_runner w))
  /\ runner_username runner
     = (if truthy (controller_username startup_args)
           && truthy (controller_password startup_args)
        then controller_username startup_args
        else runner_username (w_runner w))
  /\ runner_password runner
     = (if truthy (controller_username startup_args)
           && truthy (controller_password startup_args)
        then controller_password startup_args
        else runner_password (w_runner w)).
Proof.
  intros Hurl Htruthy Hvalid. cbn zeta.
  pose proof (run_check_controller_run X
                (set_check_controller_connection true startup_args) w url
                eq_refl) as H.
  unfold run_check_controller in H. cbn [check_controller_connection
    set_check_controller_connection] in H. rewrite when_true in H.
  assert (forall w, validate_controller_params X
                      (set_check_controller_connection true startup_args) w
                    = validate_controller_params X startup_args w) as Heq
    by (intros; by destruct startup_args).
  rewrite Heq in H. rewrite H by (by destruct startup_args).
  rewrite Hvalid. cbn zeta. cbn [snd w_runner]. unfold configured_runner.
  destruct startup_args; cbn in *. subst.
  by destruct (truthy controller_ssl_verify0),
    (truthy controller_username0 && truthy controller_password0).
Qed.

(** X11.  In worker mode a falsy answer to the workload request ends the
    pass with WebSocketExchangeException right after the request: no
    file is read, nothing is validated and no queue or task exists. *)
Theorem worker_without_workload parsed_args w :
  worker_mode parsed_args = true ->
  request_workload X (w_trace w ++ [EvStartupLogging]) (Args.id parsed_args)
  = Ok None ->
  fst (run_once X parsed_args w)
  = Raise (new_exc WebSocketExchangeException
             "Error communicating with web socket server")
  /\ w_trace (snd (run_once X parsed_args w))
     = w_trace w
       ++ [EvStartupLogging; EvRequestWorkload (Args.id parsed_args) (Ok None)].
Proof.
  intros Hworker Hanswer.
  unfold run_once, run_startup, run_startup_args.
  rewrite Hworker. run_steps. rewrite Hanswer. run_steps.
  by rewrite <- app_assoc.
Qed.

End ControllerMore.

Lemma validate_controller_params_no_url_witness :
  validate_controller_params sample_X (bare_args []) sample_world
  = (Ok tt, sample_world).
Proof.
  apply (validate_controller_params_no_url sample_X (bare_args [])
           sample_world eq_refl).
Defined.

Lemma validate_controller_params_credentials_witness :
  runner_token
    (w_runner (snd (validate_controller_params valid_url_X
                      (controller_args "https://aap") sample_world)))
  = Some "token".
Proof.
  apply (validate_controller_params_credentials valid_url_X
           (controller_args "https://aap") sample_world "https://aap"
           eq_refl eq_refl eq_refl).
Defined.

Lemma worker_without_workload_witness :
  fst (run_once sample_X worker_args sample_world)
  = Raise (new_exc WebSocketExchangeException
             "Error communicating with web socket server").
Proof.
  apply (worker_without_workload sample_X worker_args sample_world
           eq_refl eq_refl).
Defined.

(** ** The driver call within a pass *)

Lemma plan_tasks_queue variables source_dirs shutdown_delay rulesets :
  forall n t source dirs vars queue delay,
  t ∈ concat (map snd (spawn_plan variables source_dirs shutdown_delay n
                         rulesets)) ->
  task_coro t = start_source source dirs vars queue delay ->
  queue ∈ map rsq_queue
            (map fst (spawn_plan variables source_dirs shutdown_delay n
                        rulesets)).
Proof.
  induction rulesets as [|r rest IH]; intros n t s dirs vars q d; simpl.
  - by intros ?%elem_of_nil.
  - intros [Hin|Hin]%elem_of_app Hcoro.
    + assert (q = n) as ->; [|apply list_elem_of_here].
      revert Hin. generalize (S n).
      induction (sources r) as [|s0 srcs IHs]; intros m Hin.
      * by apply elem_of_nil in Hin.
      * rewrite group_tasks_cons in Hin.
        apply elem_of_cons in Hin as [->|Hin]; [|by apply IHs in Hin].
        simpl in Hcoro. by injection Hcoro as _ _ _ <- _.
    + apply list_elem_of_further. by apply (IH _ t s dirs vars q d).
Qed.

Section DriverMore.

Variable X : Collaborators.

Lemma shutdown_events_shutdown h event_log feedback tasks :
  forallb is_shutdown_event (shutdown_events X h event_log feedback tasks)
  = true.
Proof.
  unfold shutdown_events, shutdown_prefix, shutdown_wait.
  rewrite !forallb_app. simpl.
  repeat (apply andb_true_iff; split); try done.
  - by destruct feedback.
  - by induction tasks as [|t l IH]; simpl.
  - generalize (shutdown_results X h event_log feedback tasks).
    induction tasks as [|t l IH]; intros [|r rs]; simpl; try done; apply IH.
Qed.

Lemma run_once_driver_event parsed_args w new c r :
  w_trace (snd (run_once X parsed_args w)) = w_trace w ++ new ->
  EvRunRulesets c r ∈ new ->
  exists startup_args file_monitor w1 d1,
    run_startup X parsed_args w = (Ok (startup_args, file_monitor), w1)
    /\ forallb startup_event d1 = true
    /\ c = pipeline_call parsed_args startup_args file_monitor w1
    /\ r = pipeline_answer X parsed_args startup_args file_monitor w1
    /\ new = d1 ++ pipeline_events X parsed_args startup_args file_monitor w1
    /\ fst (run_once X parsed_args w)
       = pipeline_outcome X parsed_args startup_args file_monitor w1.
Proof.
  unfold run_once. rewrite bind_run.
  pose proof (run_startup_run X parsed_args w) as [(d1 & Hd1 & Hk1) _].
  destruct (run_startup X parsed_args w) as [[[sa fm]|e] w1]; cbn [fst snd] in *.
  - pose proof (run_pipeline_run X parsed_args sa fm w1) as (Hout & Htr & _).
    intros Hnew Hin. rewrite Htr, Hd1, <- app_assoc in Hnew.
    apply app_inv_head in Hnew. subst new.
    exists sa, fm, w1, d1. split; [done|]. split; [done|].
    assert (c = pipeline_call parsed_args sa fm w1
            /\ r = pipeline_answer X parsed_args sa fm w1) as [-> ->];
      [|done].
    unfold pipeline_events in Hin.
    apply elem_of_app in Hin as [Hin|Hin];
      [by pose proof (forallb_elem _ _ _ Hk1 Hin)|].
    apply elem_of_app in Hin as [Hin|Hin].
    { pose proof (forallb_elem _ _ _ (pipeline_start_kind parsed_args sa w1) Hin)
        as [_ H]%andb_true_iff. done. }
    apply elem_of_cons in Hin as [Heq|Hin]; [by injection Heq as -> ->|].
    destruct (pipeline_answer X parsed_args sa fm w1);
      [|by apply elem_of_nil in Hin].
    pose proof (forallb_elem _ _ _ (shutdown_events_kind X _ _ _ _) Hin) as H.
    by apply andb_true_iff in H as [[_ H]%andb_true_iff _].
  - intros Hnew Hin. rewrite Hd1 in Hnew. apply app_inv_head in Hnew. subst new.
    by pose proof (forallb_elem _ _ _ Hk1 Hin).
Qed.

(** X12.  When the driver raises, the pass raises the same exception and
    the driver call is the last event of the pass: the Exit entry is not
    put, the tasks created before the call are neither cancelled nor
    awaited, and the controller session is not closed. *)
Theorem driver_failure_skips_shutdown parsed_args w new c e :
  w_trace (snd (run_once X parsed_args w)) = w_trace w ++ new ->
  EvRunRulesets c (Raise e) ∈ new ->
  fst (run_once X parsed_args w) = Raise e
  /\ exists before,
       new = before ++ [EvRunRulesets c (Raise e)]
       /\ created_tasks before = created_tasks new
       /\ forallb (fun ev => negb (is_shutdown_event ev)) new = true.
Proof.
  intros Hnew Hin.
  destruct (run_once_driver_event parsed_args w new c (Raise e) Hnew Hin)
    as (sa & fm & w1 & d1 & Hs & Hk & -> & Hans & -> & Hout).
  rewrite Hout. unfold pipeline_outcome, pipeline_events. rewrite <- Hans.
  split; [done|].
  exists (d1 ++ pipeline_start parsed_args sa w1).
  rewrite app_nil_r. split; [by rewrite <- app_assoc|].
  split.
  { rewrite !created_tasks_app. unfold created_tasks at 5. simpl.
    by rewrite app_nil_r. }
  rewrite !forallb_app. simpl. rewrite andb_true_r. apply andb_true_iff. split.
  - apply (forallb_weaken startup_event); [by intros []|done].
  - apply (forallb_weaken is_spawn_event); [by intros []|].
    apply pipeline_start_spawn.
Qed.

(** X13.  A pass calls the driver at most once.  All queues and tasks
    exist before the call and none is created after it; the call carries
    the namespace unchanged, its ruleset queues are pairwise different,
    and every source task created in the pass writes to one of them. *)
Theorem single_driver_call parsed_args w new c r :
  w_trace (snd (run_once X parsed_args w)) = w_trace w ++ new ->
  EvRunRulesets c r ∈ new ->
  exists before after,
    new = before ++ EvRunRulesets c r :: after
    /\ forallb (fun e => negb (is_driver_call e)) before = true
    /\ forallb (fun e => negb (is_driver_call e) && negb (is_spawn_event e))
         after = true
    /\ dc_parsed_args c = parsed_args
    /\ NoDup (map rsq_queue (dc_ruleset_queues c))
    /\ forall t source dirs vars queue delay,
         t ∈ created_tasks before ->
         task_coro t = start_source source dirs vars queue delay ->
         queue ∈ map rsq_queue (dc_ruleset_queues c).
Proof.
  intros Hnew Hin.
  destruct (run_once_driver_event parsed_args w new c r Hnew Hin)
    as (sa & fm & w1 & d1 & Hs & Hk & -> & -> & -> & Hout).
  exists (d1 ++ pipeline_start parsed_args sa w1),
    (match pipeline_answer X parsed_args sa fm w1 with
     | Raise _ => []
     | Ok _ =>
         shutdown_events X (pipeline_history X parsed_args sa fm w1)
           (pipeline_event_log parsed_args w1)
           (pipeline_feedback parsed_args sa w1)
           (pipeline_tasks parsed_args sa w1)
     end).
  split; [unfold pipeline_events; by rewrite <- app_assoc|].
  split.
  { rewrite forallb_app. apply andb_true_iff. split.
    - apply (forallb_weaken startup_event); [by intros []|done].
    - apply (forallb_weaken is_spawn_event); [by intros []|].
      apply pipeline_start_spawn. }
  split.
  { destruct (pipeline_answer X parsed_args sa fm w1); [|done].
    apply (forallb_weaken is_shutdown_event);
      [by intros []|apply shutdown_events_shutdown]. }
  split; [done|]. split; [apply spawn_plan_queues_nodup|].
  intros t s dirs vars q d Ht Hcoro.
  rewrite created_tasks_app, pipeline_start_tasks,
    (created_tasks_none d1) in Ht
    by (apply (forallb_weaken startup_event); [by intros []|done]).
  simpl in Ht. unfold pipeline_tasks in Ht.
  apply elem_of_app in Ht as [Ht|Ht].
  - cbn [pipeline_call dc_ruleset_queues]. by apply (plan_tasks_queue _ _ _ _ _ t s dirs vars q d).
  - unfold pipeline_feedback in Ht.
    destruct (truthy (Args.websocket_url parsed_args)); simpl in Ht;
      [|by apply elem_of_nil in Ht].
    apply list_elem_of_singleton in Ht. subst t. discriminate.
Qed.

(** X14.  Given the startup arguments a pass starts from, the tasks it
    creates are one per source declaration of every ruleset, plus the
    feedback task when a websocket URL is configured. *)
Theorem pass_task_count parsed_args w startup_args file_monitor new :
  fst (run_startup X parsed_args w) = Ok (startup_args, file_monitor) ->
  w_trace (snd (run_once X parsed_args w)) = w_trace w ++ new ->
  length (created_tasks new)
  = sum_list (map (fun r => length (sources r)) (rulesets startup_args))
    + (if truthy (Args.websocket_url parsed_args) then 1 else 0).
Proof.
  intros Hs Hnew. unfold run_once in Hnew. rewrite bind_run in Hnew.
  pose proof (run_startup_run X parsed_args w) as [(d1 & Hd1 & Hk1) _].
  destruct (run_startup X parsed_args w) as [[[sa fm]|e] w1];
    cbn [fst snd] in *; [|discriminate].
  injection Hs as -> ->.
  pose proof (run_pipeline_run X parsed_args startup_args file_monitor w1)
    as (_ & Htr & _).
  rewrite Htr, Hd1, <- app_assoc in Hnew. apply app_inv_head in Hnew.
  subst new. unfold pipeline_events.
  rewrite !created_tasks_app, pipeline_start_tasks, (created_tasks_none d1)
    by (apply (forallb_weaken startup_event); [by intros []|done]).
  assert (created_tasks
            (match pipeline_answer X parsed_args startup_args file_monitor w1
             with
             | Ok _ =>
                 shutdown_events X
                   (pipeline_history X parsed_args startup_args file_monitor
                      w1)
                   (pipeline_event_log parsed_args w1)
                   (pipeline_feedback parsed_args startup_args w1)
                   (pipeline_tasks parsed_args startup_args w1)
             | Raise _ => []
             end) = []) as ->.
  { destruct (pipeline_answer X _ _ _ _); [|done].
    apply created_tasks_none.
    apply (forallb_weaken
             (fun e => negb (startup_event e) && negb (is_driver_call e)
                       && negb (is_create_task e)));
      [by intros ? [_ ?]%andb_true_iff|apply shutdown_events_kind]. }
  rewrite !length_app. cbn [length app Nat.add].
  unfold pipeline_tasks, pipeline_feedback, pipeline_plan.
  rewrite length_app, spawn_plan_task_count.
  destruct (truthy (Args.websocket_url parsed_args)); simpl; lia.
Qed.

(** The environment after the export loop, key by key. *)
Lemma exported_lookup (env : list (string * PyValue))
    (environ : gmap string string) (k : string) :
  exported X env environ !! k
  = match dict_get k (rev env) with
    | Some v => Some (py_str X v)
    | None => environ !! k
    end.
Proof.
  unfold exported. induction env as [|[k0 v0] env IH] using rev_ind; [done|].
  rewrite fold_left_app, rev_app_distr. simpl.
  destruct (String.eqb k k0) eqn:E.
  - apply String.eqb_eq in E. subst k0. by rewrite lookup_insert_eq.
  - rewrite lookup_insert_ne; [done|].
    intros ->. by rewrite String.eqb_refl in E.
Qed.

(** X15.  When validation and export succeed, the exported variables
    are what [substitute_variables] answered for the environment
    variables of the startup arguments and the decrypted variables; the
    process environment then holds, for every key of that answer, the
    string form of its value, and every other key keeps the value it
    had. *)
Theorem environment_export startup_args w startup_args' :
  fst (run_validate_and_export X startup_args w) = Ok startup_args' ->
  exists decrypted env,
    decrypted_context X (variables startup_args) = Ok decrypted
    /\ substitute_variables X (env_vars startup_args) decrypted = Ok env
    /\ variables startup_args' = decrypted
    /\ env_vars startup_args' = env
    /\ w_trace (snd (run_validate_and_export X startup_args w))
       = w_trace w
         ++ map (fun kv => EvSetEnv (fst kv) (py_str X (snd kv)) (Ok tt)) env
    /\ forall k,
         w_environ (snd (run_validate_and_export X startup_args w)) !! k
         = match dict_get k (rev env) with
           | Some v => Some (py_str X v)
           | None => w_environ w !! k
           end.
Proof.
  intros Hok.
  pose proof (run_validate_and_export_run X startup_args w) as H.
  rewrite Hok in H. destruct H as (_ & _ & Ht & He & Hdc & Hsv & _).
  exists (variables startup_args'), (env_vars startup_args').
  split; [done|]. split; [done|]. split; [done|]. split; [done|].
  split; [done|]. intros k. rewrite He. apply exported_lookup.
Qed.

End DriverMore.

Lemma driver_failure_skips_shutdown_witness :
  fst (run_once failing_X sample_run_args sample_world) = Raise driver_error.
Proof.
  apply (driver_failure_skips_shutdown failing_X sample_run_args sample_world
           failing_trace sample_call driver_error).
  - vm_compute. reflexivity.
  - apply list_elem_of_In. vm_compute.
    repeat (first [left; reflexivity | right]).
Defined.

Lemma single_driver_call_witness :
  dc_parsed_args sample_call = sample_run_args.
Proof.
  destruct (single_driver_call sample_X sample_run_args sample_world
              sample_trace sample_call (Ok false)
              sample_trace_run sample_trace_driver)
    as (before & after & _ & _ & _ & H & _).
  exact H.
Defined.

Lemma pass_task_count_witness :
  length (created_tasks sample_trace) = 2.
Proof.
  rewrite (pass_task_count sample_X sample_run_args sample_world
             (set_rulesets (one_rule [debug_action]) (bare_args []))
             (Some "rules.yml") sample_trace).
  - reflexivity.
  - vm_compute. reflexivity.
  - exact sample_trace_run.
Defined.

Lemma environment_export_witness :
  exists env,
    substitute_variables sample_X (env_vars export_args) [] = Ok env
    /\ w_environ (snd (run_validate_and_export sample_X export_args
                         sample_world)) !! "LANG"
       = match dict_get "LANG" (rev env) with
         | Some v => Some (py_str sample_X v)
         | None => None
         end.
Proof.
  destruct (environment_export sample_X export_args sample_world export_args)
    as (decrypted & env & Hd & Hs & _ & _ & _ & Hk).
  - vm_compute. reflexivity.
  - injection Hd as <-. exists env. split; [exact Hs|]. apply Hk.
Defined.
